(** * Sport-Images: the chat front end of [src/index.tsx]

    The program is a single TypeScript module: five module-level variables,
    a handful of DOM nodes, one submit listener, one delegated click listener
    and three asynchronous functions that each await one remote call.

    The embedding keeps that shape.  The module variables and the DOM nodes the
    code touches are the fields of one [State] record; every function of the
    source is a function on [State]; an [async] function is split at its
    [await] into the part that runs when it is called and the part that runs
    when the awaited promise settles, and the calls that are outstanding are
    kept in the state so that other listeners can run in between, as they can
    in the browser. *)

From Stdlib Require Import String Ascii List Bool Arith ZArith Lia.
Import ListNotations.
Local Open Scope string_scope.
Local Open Scope list_scope.
Set Warnings "-register-all".

(* ================================================================== *)
(** ** JavaScript strings *)
(* ================================================================== *)

(** A string is a sequence of code units; the model keeps the code units
    [0..255], one [ascii] each. *)

Module JsString.

(** Truthiness of a string value: every string but the empty one. *)
Definition truthy (s : string) : bool :=
  match s with
  | EmptyString => false
  | String _ _ => true
  end.

(** [WhiteSpace] and [LineTerminator] code points below 256: TAB, LF, VT, FF,
    CR, SP and NBSP. *)
Definition isWhiteSpace (c : ascii) : bool :=
  let n := nat_of_ascii c in
  (((9 <=? n) && (n <=? 13)) || (n =? 32) || (n =? 160))%nat.

Fixpoint trimStart (s : string) : string :=
  match s with
  | EmptyString => EmptyString
  | String c r => if isWhiteSpace c then trimStart r else s
  end.

Fixpoint trimEnd (s : string) : string :=
  match s with
  | EmptyString => EmptyString
  | String c r =>
      match trimEnd r with
      | EmptyString => if isWhiteSpace c then EmptyString else String c EmptyString
      | r' => String c r'
      end
  end.

(** [String.prototype.trim]. *)
Definition trim (s : string) : string := trimEnd (trimStart s).

(** Every code unit of the string is white space (the empty string
    included). *)
Fixpoint allWhiteSpace (s : string) : bool :=
  match s with
  | EmptyString => true
  | String c r => isWhiteSpace c && allWhiteSpace r
  end.

(** [s.startsWith(p)], returning what follows the prefix. *)
Fixpoint stripPrefix (p s : string) : option string :=
  match p, s with
  | EmptyString, _ => Some s
  | String a p', String b s' => if Ascii.eqb a b then stripPrefix p' s' else None
  | String _ _, EmptyString => None
  end.

(** [s.endsWith(p)], returning what precedes the suffix. *)
Fixpoint stripSuffix (p s : string) : option string :=
  match s with
  | EmptyString => if String.eqb p EmptyString then Some EmptyString else None
  | String c r =>
      if String.eqb p s then Some EmptyString
      else match stripSuffix p r with
           | Some r' => Some (String c r')
           | None => None
           end
  end.

End JsString.

(* ================================================================== *)
(** ** The DOM the code builds *)
(* ================================================================== *)

Inductive Sender := bot | user.

(** A [<button>] as the code writes it: its class, its one [data-*] attribute
    ([data-style] or [data-choice]) and its label. *)
Record Button := mkButton
  { btn_class : string;
    btn_data : string;
    btn_label : string }.

(** One cell of the image grid of [generateImage]: the image, its download
    link and its [vary-button] carrying [data-image-index]; [item_prompt] is
    the prompt in the [alt] text (the time stamp in the download name is not
    kept). *)
Record GridItem := mkGridItem
  { item_base64 : string;
    item_index : nat;
    item_prompt : string }.

(** What is appended below the text of a message bubble. *)
Inductive Child :=
  | ButtonContainer (className : string) (buttons : list Button)
  | ImageGridContainer (items : list GridItem).

(** The markup handed to [addMessage]: literal text, or the
    [image-container] template of [generateImageVariation] with its two holes
    (the image bytes and the feedback in the [alt] text; the time stamp in the
    download name is not kept). *)
Inductive Html :=
  | Text (s : string)
  | ImageContainerHTML (base64ImageBytes : string) (feedbackPrompt : string).

Inductive Inner :=
  | LoaderDots
  | InnerHTML (h : Html).

(** A child of [chatContainer].  [msg_node] is the identity of the element:
    [removeChild] is by identity. *)
Record Message := mkMessage
  { msg_node : nat;
    msg_sender : Sender;
    msg_inner : Inner;
    msg_children : list Child }.

Definition style_buttons : list Button :=
  [ mkButton "style-button" "realistic" "Realistic";
    mkButton "style-button" "cartoon" "Cartoon";
    mkButton "style-button" "digital art" "Digital Art";
    mkButton "style-button" "cinematic" "Cinematic" ].

Definition satisfaction_buttons : list Button :=
  [ mkButton "satisfaction-button" "satisfied" "I'm satisfied";
    mkButton "satisfaction-button" "variations" "Generate variations";
    mkButton "satisfaction-button" "retry" "Try another idea" ].

Definition style_buttons_container : Child :=
  ButtonContainer "style-buttons-container" style_buttons.

Definition satisfaction_buttons_container : Child :=
  ButtonContainer "satisfaction-buttons" satisfaction_buttons.

(* ================================================================== *)
(** ** Remote calls *)
(* ================================================================== *)

(** A content part of a [generateContent] response: text, or an inline image
    ([part.inlineData]) with its [data]. *)
Inductive Part :=
  | TextPart (text : string)
  | InlineDataPart (data : string).

(** [PersonaResponse], the interface the code declares. *)
Record PersonaResponse := mkPersonaResponse
  { isValidRequest : bool;
    botResponse : string }.

(** A call that has been issued and whose promise is not settled yet, with
    what the continuation closes over. *)
Inductive Pending :=
  | AwaitPersona (prompt : string)
  | AwaitImages (loaderMessage : nat) (prompt : string)
  | AwaitVariation (loaderMessage : nat) (base : string) (feedbackPrompt : string).

(** How an awaited promise settles. *)
Inductive Settled (A : Type) :=
  | Rejected
  | Resolved (a : A).
Arguments Rejected {A}.
Arguments Resolved {A} a.

(* ================================================================== *)
(** ** The state of the page *)
(* ================================================================== *)

Record State := mkState
  { (* module variables *)
    isLoading : bool;
    lastUserPrompt : string;
    lastGeneratedImage : option string;
    lastGeneratedImages : list string;
    isVariationRequest : bool;
    (* DOM *)
    promptInput_value : string;
    promptInput_disabled : bool;
    sendButton_disabled : bool;
    chatContainer : list Message;
    next_node : nat;
    fullscreenImage_src : string;
    fullscreenViewer_visible : bool;
    (* event loop *)
    inflight : list Pending;
    timers : nat }.

Definition set_loading_fields (b : bool) (s : State) : State :=
  mkState b (lastUserPrompt s) (lastGeneratedImage s) (lastGeneratedImages s)
          (isVariationRequest s) (promptInput_value s) b b (chatContainer s)
          (next_node s) (fullscreenImage_src s) (fullscreenViewer_visible s)
          (inflight s) (timers s).

Definition set_lastUserPrompt (p : string) (s : State) : State :=
  mkState (isLoading s) p (lastGeneratedImage s) (lastGeneratedImages s)
          (isVariationRequest s) (promptInput_value s) (promptInput_disabled s)
          (sendButton_disabled s) (chatContainer s) (next_node s)
          (fullscreenImage_src s) (fullscreenViewer_visible s) (inflight s) (timers s).

Definition set_lastGeneratedImage (i : option string) (s : State) : State :=
  mkState (isLoading s) (lastUserPrompt s) i (lastGeneratedImages s)
          (isVariationRequest s) (promptInput_value s) (promptInput_disabled s)
          (sendButton_disabled s) (chatContainer s) (next_node s)
          (fullscreenImage_src s) (fullscreenViewer_visible s) (inflight s) (timers s).

Definition set_lastGeneratedImages (l : list string) (s : State) : State :=
  mkState (isLoading s) (lastUserPrompt s) (lastGeneratedImage s) l
          (isVariationRequest s) (promptInput_value s) (promptInput_disabled s)
          (sendButton_disabled s) (chatContainer s) (next_node s)
          (fullscreenImage_src s) (fullscreenViewer_visible s) (inflight s) (timers s).

Definition set_isVariationRequest (b : bool) (s : State) : State :=
  mkState (isLoading s) (lastUserPrompt s) (lastGeneratedImage s) (lastGeneratedImages s)
          b (promptInput_value s) (promptInput_disabled s)
          (sendButton_disabled s) (chatContainer s) (next_node s)
          (fullscreenImage_src s) (fullscreenViewer_visible s) (inflight s) (timers s).

Definition set_promptInput_value (v : string) (s : State) : State :=
  mkState (isLoading s) (lastUserPrompt s) (lastGeneratedImage s) (lastGeneratedImages s)
          (isVariationRequest s) v (promptInput_disabled s)
          (sendButton_disabled s) (chatContainer s) (next_node s)
          (fullscreenImage_src s) (fullscreenViewer_visible s) (inflight s) (timers s).

Definition set_chat (c : list Message) (n : nat) (s : State) : State :=
  mkState (isLoading s) (lastUserPrompt s) (lastGeneratedImage s) (lastGeneratedImages s)
          (isVariationRequest s) (promptInput_value s) (promptInput_disabled s)
          (sendButton_disabled s) c n
          (fullscreenImage_src s) (fullscreenViewer_visible s) (inflight s) (timers s).

Definition set_viewer (src : string) (visible : bool) (s : State) : State :=
  mkState (isLoading s) (lastUserPrompt s) (lastGeneratedImage s) (lastGeneratedImages s)
          (isVariationRequest s) (promptInput_value s) (promptInput_disabled s)
          (sendButton_disabled s) (chatContainer s) (next_node s)
          src visible (inflight s) (timers s).

Definition set_inflight (l : list Pending) (s : State) : State :=
  mkState (isLoading s) (lastUserPrompt s) (lastGeneratedImage s) (lastGeneratedImages s)
          (isVariationRequest s) (promptInput_value s) (promptInput_disabled s)
          (sendButton_disabled s) (chatContainer s) (next_node s)
          (fullscreenImage_src s) (fullscreenViewer_visible s) l (timers s).

Definition set_timers (n : nat) (s : State) : State :=
  mkState (isLoading s) (lastUserPrompt s) (lastGeneratedImage s) (lastGeneratedImages s)
          (isVariationRequest s) (promptInput_value s) (promptInput_disabled s)
          (sendButton_disabled s) (chatContainer s) (next_node s)
          (fullscreenImage_src s) (fullscreenViewer_visible s) (inflight s) n.

(** The module as loaded: the five [let]s at their initial values, an empty
    chat, and the two welcome timers of [showWelcomeMessage] armed. *)
Definition initial : State :=
  mkState false "" None [] false "" false false [] 0 "" false [] 2.

(* ================================================================== *)
(** ** [setLoading], [addMessage] *)
(* ================================================================== *)

Definition setLoading (loading : bool) (s : State) : State :=
  set_loading_fields loading s.

Record Options := mkOptions
  { opt_isLoading : bool;
    opt_isSatisfactionRequest : bool;
    opt_isStyleRequest : bool }.

Definition no_options : Options := mkOptions false false false.
Definition loading_option : Options := mkOptions true false false.
Definition satisfaction_option : Options := mkOptions false true false.
Definition style_option : Options := mkOptions false false true.

(** The element [addMessage] builds, given the node identity it gets. *)
Definition messageElement (node : nat) (text : Html) (sender : Sender)
    (options : Options) : Message :=
  mkMessage node sender
    (if opt_isLoading options then LoaderDots else InnerHTML text)
    ((if opt_isStyleRequest options then [style_buttons_container] else [])
     ++ (if opt_isSatisfactionRequest options then [satisfaction_buttons_container] else [])).

(** [addMessage]: appends the element to [chatContainer]; returns it (its
    node) with the new state. *)
Definition addMessage (text : Html) (sender : Sender) (options : Options)
    (s : State) : State * nat :=
  let node := next_node s in
  (set_chat (chatContainer s ++ [messageElement node text sender options]) (S node) s,
   node).

Definition addMessage_ (text : Html) (sender : Sender) (options : Options)
    (s : State) : State :=
  fst (addMessage text sender options s).

(** [chatContainer.removeChild(node)] for a node that is a child: the
    continuations below call it with the loader of the call that settles,
    which is in the chat in every state the page can reach. *)
Definition removeChild (node : nat) (s : State) : State :=
  set_chat (filter (fun m => negb (Nat.eqb (msg_node m) node)) (chatContainer s))
           (next_node s) s.

(** [botMessage.appendChild(child)] on the message with that node. *)
Definition appendChild (node : nat) (child : Child) (s : State) : State :=
  set_chat (map (fun m => if Nat.eqb (msg_node m) node
                          then mkMessage (msg_node m) (msg_sender m) (msg_inner m)
                                         (msg_children m ++ [child])
                          else m) (chatContainer s))
           (next_node s) s.

(* ================================================================== *)
(** ** The texts of the bot *)
(* ================================================================== *)

Definition text_options : string :=
  "Here are a few options. Click the wand to request changes to a specific image, or describe a new idea below.".

Definition text_no_images : string :=
  "Sorry, I couldn't generate any images. Please try a different description.".

Definition text_images_error : string :=
  "An error occurred while generating the images. Please try again.".

Definition text_no_last_image : string :=
  "My apologies, I can't find the last image to modify. Please describe a new image.".

Definition text_how_does_this_look : string :=
  "How does this look? Are you satisfied, or would you like to make more changes?".

Definition text_no_variation : string :=
  "Sorry, I couldn't generate a variation based on that feedback. Please try describing the change differently.".

Definition text_previous_image : string :=
  "Are you satisfied with the previous image, or would you like to try again?".

Definition text_variation_error : string :=
  "An error occurred while generating the image variation. Please try again.".

Definition text_choose_style : string :=
  "<br><br>Now, choose an art style for your image.".

Definition text_persona_error : string :=
  "Sorry, I had an issue processing your request. Please try again.".

Definition text_great : string :=
  "Great! Your sports image has been generated successfully.".

Definition text_next : string :=
  "What would you like to create next?".

Definition text_retry : string :=
  "No problem. Please describe the new sports image you have in mind.".

Definition text_what_to_change : string :=
  "Of course. What would you like to change or add to this image?".

(* ================================================================== *)
(** ** [generateImage] *)
(* ================================================================== *)

(** The cells of the grid: [lastGeneratedImages.forEach((base64, index) => ...)],
    each [alt] text reading [lastUserPrompt].  A cell records what the
    template of the source is filled with; the image, the link and the vary
    button it describes are the elements [innerHTML] yields when the image
    data and the prompt are [markup_free]. *)
Definition gridItems (images : list string) (prompt : string) : list GridItem :=
  map (fun p => mkGridItem (snd p) (fst p) prompt)
      (combine (seq 0 (length images)) images).

(** Up to the [await]: the loader bubble is added and the call is issued. *)
Definition generateImage (prompt : string) (s : State) : State :=
  let (s1, loaderMessage) := addMessage (Text "") bot loading_option s in
  set_inflight (inflight s1 ++ [AwaitImages loaderMessage prompt]) s1.

(** From the [await] on.  [Resolved images] is a response whose
    [generatedImages] carry these [imageBytes]; [Rejected] enters the
    [catch]. *)
Definition generateImage_resume (loaderMessage : nat)
    (response : Settled (list string)) (s : State) : State :=
  match response with
  | Resolved images =>
      let s1 := removeChild loaderMessage s in
      let s2 := set_lastGeneratedImages images s1 in
      let s3 := set_lastGeneratedImage None s2 in
      if (0 <? length (lastGeneratedImages s3))%nat then
        let gridContainer :=
          ImageGridContainer (gridItems (lastGeneratedImages s3) (lastUserPrompt s3)) in
        let (s4, botMessage) := addMessage (Text "") bot no_options s3 in
        let s5 := appendChild botMessage gridContainer s4 in
        let s6 := addMessage_
          (Text text_options)
          bot no_options s5 in
        setLoading false s6
      else
        let s4 := set_lastGeneratedImages [] s3 in
        let s5 := addMessage_
          (Text text_no_images)
          bot no_options s4 in
        setLoading false s5
  | Rejected =>
      let s1 := removeChild loaderMessage s in
      let s2 := set_lastGeneratedImages [] s1 in
      let s3 := set_lastGeneratedImage None s2 in
      let s4 := addMessage_
        (Text text_images_error)
        bot no_options s3 in
      setLoading false s4
  end.

(* ================================================================== *)
(** ** [generateImageVariation] *)
(* ================================================================== *)

(** [!lastGeneratedImage] is false exactly on a non-empty string. *)
Definition image_truthy (i : option string) : bool :=
  match i with
  | Some d => JsString.truthy d
  | None => false
  end.

(** Up to the [await]: the guard on [lastGeneratedImage], then
    [setLoading(true)], the loader bubble and the call, whose image part is
    built from [lastGeneratedImage] as it is now. *)
Definition generateImageVariation (feedbackPrompt : string) (s : State) : State :=
  match lastGeneratedImage s with
  | Some base =>
      if JsString.truthy base then
        let s1 := setLoading true s in
        let (s2, loaderMessage) := addMessage (Text "") bot loading_option s1 in
        set_inflight (inflight s2 ++ [AwaitVariation loaderMessage base feedbackPrompt]) s2
      else
        setLoading false
          (addMessage_
             (Text text_no_last_image)
             bot no_options s)
  | None =>
      setLoading false
        (addMessage_
           (Text text_no_last_image)
           bot no_options s)
  end.

(** One turn of the [for ... of] loop over the parts; the accumulator is the
    state and [foundImage]. *)
Definition variation_part (feedbackPrompt : string) (acc : State * bool)
    (part : Part) : State * bool :=
  match part with
  | InlineDataPart base64ImageBytes =>
      let s1 := set_lastGeneratedImage (Some base64ImageBytes) (fst acc) in
      let s2 := addMessage_ (ImageContainerHTML base64ImageBytes feedbackPrompt)
                            bot no_options s1 in
      (s2, true)
  | TextPart _ => acc
  end.

(** A candidate of a [generateContent] response, given by its
    [content.parts]: [None] when the candidate has no [content], or the
    content no [parts], to iterate over. *)
Definition Candidate : Type := option (list Part).

(** From the [await] on.  [Resolved candidates] is a response with that
    [candidates] field ([None] when the field is absent).

    When the first candidate has no parts to iterate over, the [for ... of]
    throws; the loader has been removed by then, so that in the [catch]
    [removeChild(loaderMessage)] throws in its turn and the function ends
    there: nothing is added to the chat. *)
Definition generateImageVariation_resume (loaderMessage : nat)
    (feedbackPrompt : string) (response : Settled (option (list Candidate)))
    (s : State) : State :=
  match response with
  | Resolved candidates =>
      let s1 := removeChild loaderMessage s in
      match candidates with
      | Some (None :: _) => s1
      | _ =>
          let (s2, foundImage) :=
            match candidates with
            | Some (Some parts :: _) =>
                fold_left (variation_part feedbackPrompt) parts (s1, false)
            | _ => (s1, false)
            end in
          if foundImage then
            addMessage_
              (Text text_how_does_this_look)
              bot satisfaction_option s2
          else
            let s3 := addMessage_
              (Text text_no_variation)
              bot no_options s2 in
            addMessage_
              (Text text_previous_image)
              bot satisfaction_option s3
      end
  | Rejected =>
      let s1 := removeChild loaderMessage s in
      addMessage_
        (Text text_variation_error)
        bot no_options s1
  end.

(* ================================================================== *)
(** ** [handleUserPrompt] *)
(* ================================================================== *)

(** Up to the [await] of [getPersonaResponse]. *)
Definition handleUserPrompt (prompt : string) (s : State) : State :=
  let s1 := setLoading true s in
  let s2 := set_lastUserPrompt prompt s1 in
  set_inflight (inflight s2 ++ [AwaitPersona prompt]) s2.

(** From the [await] on, with how the promise of [getPersonaResponse]
    settled; the value is read at the type the function declares. *)
Definition handleUserPrompt_resume (personaResponse : Settled PersonaResponse)
    (s : State) : State :=
  match personaResponse with
  | Resolved r =>
      if isValidRequest r then
        addMessage_
          (Text (botResponse r ++ text_choose_style)%string)
          bot style_option s
      else
        setLoading false (addMessage_ (Text (botResponse r)) bot no_options s)
  | Rejected =>
      setLoading false
        (addMessage_
           (Text text_persona_error)
           bot no_options s)
  end.

(* ================================================================== *)
(** ** The submit listener *)
(* ================================================================== *)

Definition onSubmit (s : State) : State :=
  if isLoading s then s
  else
    let prompt := JsString.trim (promptInput_value s) in
    if JsString.truthy prompt then
      let s1 := addMessage_ (Text prompt) user no_options s in
      let s2 := set_promptInput_value "" s1 in
      if isVariationRequest s2 then
        generateImageVariation prompt (set_isVariationRequest false s2)
      else
        handleUserPrompt prompt s2
    else s.

(* ================================================================== *)
(** ** The click listener *)
(* ================================================================== *)

(** What a click on [chatContainer] can land on, as far as the listener
    tells targets apart. *)
Inductive Target :=
  | Img (src : string)                     (* an <img> inside an .image-container *)
  | ButtonOf (message : nat) (b : Button)  (* a button of a button container of that bubble *)
  | VaryButton (imageIndex : Z)            (* a .vary-button (or its icon), with the integer
                                              [parseInt] reads from [data-image-index] *)
  | Elsewhere.

Definition Button_eqb (a b : Button) : bool :=
  String.eqb (btn_class a) (btn_class b)
  && String.eqb (btn_data a) (btn_data b)
  && String.eqb (btn_label a) (btn_label b).

Definition holds_button (b : Button) (c : Child) : bool :=
  match c with
  | ButtonContainer _ buttons => existsb (Button_eqb b) buttons
  | ImageGridContainer _ => false
  end.

Fixpoint remove_first (f : Child -> bool) (l : list Child) : list Child :=
  match l with
  | [] => []
  | c :: r => if f c then r else c :: remove_first f r
  end.

(** [target.parentElement.remove()]: the container of the clicked button
    leaves its bubble. *)
Definition removeButtonContainer (message : nat) (b : Button) (s : State) : State :=
  set_chat (map (fun m => if Nat.eqb (msg_node m) message
                          then mkMessage (msg_node m) (msg_sender m) (msg_inner m)
                                         (remove_first (holds_button b) (msg_children m))
                          else m) (chatContainer s))
           (next_node s) s.

(** [lastGeneratedImages[index]]: [None] is [undefined]. *)
Definition image_at (images : list string) (index : Z) : option string :=
  if (index <? 0)%Z then None else nth_error images (Z.to_nat index).

Definition fullPrompt (prompt style : string) : string :=
  ("Generate 4 distinct, high-quality images of '" ++ prompt ++ "', in a " ++ style
   ++ " style. If a well-known athlete is mentioned, please ensure the image is a recognizable likeness. The images should have a modern, aesthetic vibe and showcase the sport from different perspectives, including action shots, equipment close-ups, and artistic compositions.")%string.

Definition onClick (target : Target) (s : State) : State :=
  match target with
  | Img src => set_viewer src true s
  | ButtonOf message b =>
      if String.eqb (btn_class b) "style-button" then
        let style := btn_data b in
        let s1 := removeButtonContainer message b s in
        if JsString.truthy style && JsString.truthy (lastUserPrompt s1) then
          generateImage (fullPrompt (lastUserPrompt s1) style) s1
        else s1
      else if String.eqb (btn_class b) "satisfaction-button" then
        let choice := btn_data b in
        let s1 := removeButtonContainer message b s in
        if String.eqb choice "satisfied" then
          let s2 := addMessage_ (Text text_great)
                                bot no_options s1 in
          let s3 := addMessage_ (Text text_next) bot no_options s2 in
          let s4 := setLoading false s3 in
          let s5 := set_lastGeneratedImage None s4 in
          set_lastGeneratedImages [] s5
        else if String.eqb choice "retry" then
          let s2 := addMessage_
            (Text text_retry)
            bot no_options s1 in
          let s3 := setLoading false s2 in
          let s4 := set_lastGeneratedImage None s3 in
          set_lastGeneratedImages [] s4
        else if String.eqb choice "variations" then
          let s2 := set_isVariationRequest true s1 in
          let s3 := addMessage_
            (Text text_what_to_change)
            bot no_options s2 in
          setLoading false s3
        else s1
      else s
  | VaryButton index =>
      match image_at (lastGeneratedImages s) index with
      | Some image =>
          if JsString.truthy image then
            let s1 := set_lastGeneratedImage (Some image) s in
            let s2 := set_isVariationRequest true s1 in
            let s3 := addMessage_
              (Text text_what_to_change)
              bot no_options s2 in
            setLoading false s3
          else s
      | None => s
      end
  | Elsewhere => s
  end.

(** [closeFullscreenViewer]. *)
Definition closeFullscreenViewer (s : State) : State :=
  set_viewer (fullscreenImage_src s) false s.

(* ================================================================== *)
(** ** The event loop *)
(* ================================================================== *)

(** The dash of the first welcome text, as the source file has it: the three
    characters U+00E2 U+20AC U+201C, in the UTF-8 bytes of the file. *)
Definition en_dash : string :=
  String (ascii_of_nat 195) (String (ascii_of_nat 162)
  (String (ascii_of_nat 226) (String (ascii_of_nat 130) (String (ascii_of_nat 172)
  (String (ascii_of_nat 226) (String (ascii_of_nat 128) (String (ascii_of_nat 156)
  ""))))))).

(** [showWelcomeMessage]: two timers, each adding one bubble. *)
Definition welcome (remaining : nat) : string :=
  match remaining with
  | 2 => ("Welcome to the Sports Visuals Generator " ++ en_dash
          ++ " your AI-powered assistant for creating stunning sports-themed images.")%string
  | _ => "This chatbot can generate images for any sport. What would you like to create?"
  end.

Definition imageUrl (base64 : string) : string :=
  ("data:image/png;base64," ++ base64)%string.

Definition shows_image (src : string) (m : Message) : bool :=
  match msg_inner m with
  | InnerHTML (ImageContainerHTML base64 _) => String.eqb src (imageUrl base64)
  | _ => false
  end
  || existsb (fun c => match c with
                       | ImageGridContainer items =>
                           existsb (fun i => String.eqb src (imageUrl (item_base64 i))) items
                       | ButtonContainer _ _ => false
                       end) (msg_children m).

Definition has_vary_button (index : Z) (m : Message) : bool :=
  existsb (fun c => match c with
                    | ImageGridContainer items =>
                        existsb (fun i => Z.eqb index (Z.of_nat (item_index i))) items
                    | ButtonContainer _ _ => false
                    end) (msg_children m).

(** The target is in the document, so that a click can land on it.  The
    elements counted are those the code builds: the buttons of the containers
    it appends and the cells of its grids.  Text that carries markup of its
    own, assigned to [innerHTML], can add others; statements about what is
    not in the document are made for [plainly_reachable] states. *)
Definition target_present (t : Target) (s : State) : bool :=
  match t with
  | Img src => existsb (shows_image src) (chatContainer s)
  | ButtonOf message b =>
      existsb (fun m => Nat.eqb (msg_node m) message
                        && existsb (holds_button b) (msg_children m))
              (chatContainer s)
  | VaryButton index => existsb (has_vary_button index) (chatContainer s)
  | Elsewhere => true
  end.

Fixpoint remove_nth {A : Type} (k : nat) (l : list A) : list A :=
  match k, l with
  | _, [] => []
  | O, _ :: r => r
  | S k', a :: r => a :: remove_nth k' r
  end.

(** What can happen to the page: a timer fires, the user types, submits or
    clicks, or the [k]-th outstanding call settles. *)
Inductive Event :=
  | Timeout
  | Input (text : string)
  | SubmitForm
  | Click (t : Target)
  | CloseViewer
  | PersonaSettled (k : nat) (o : Settled PersonaResponse)
  | ImagesSettled (k : nat) (o : Settled (list string))
  | ContentSettled (k : nat) (o : Settled (option (list Candidate))).

(** One turn of the event loop; [None] when the event cannot happen in that
    state. *)
Definition step (e : Event) (s : State) : option State :=
  match e with
  | Timeout =>
      match timers s with
      | O => None
      | S n => Some (set_timers n (addMessage_ (Text (welcome (S n))) bot no_options s))
      end
  | Input text =>
      if promptInput_disabled s then None else Some (set_promptInput_value text s)
  | SubmitForm => Some (onSubmit s)
  | Click t => if target_present t s then Some (onClick t s) else None
  | CloseViewer => Some (closeFullscreenViewer s)
  | PersonaSettled k o =>
      match nth_error (inflight s) k with
      | Some (AwaitPersona _) =>
          Some (handleUserPrompt_resume o (set_inflight (remove_nth k (inflight s)) s))
      | _ => None
      end
  | ImagesSettled k o =>
      match nth_error (inflight s) k with
      | Some (AwaitImages loaderMessage _) =>
          Some (generateImage_resume loaderMessage o
                  (set_inflight (remove_nth k (inflight s)) s))
      | _ => None
      end
  | ContentSettled k o =>
      match nth_error (inflight s) k with
      | Some (AwaitVariation loaderMessage _ feedbackPrompt) =>
          Some (generateImageVariation_resume loaderMessage feedbackPrompt o
                  (set_inflight (remove_nth k (inflight s)) s))
      | _ => None
      end
  end.

Fixpoint run (trace : list Event) (s : State) : option State :=
  match trace with
  | [] => Some s
  | e :: rest =>
      match step e s with
      | Some s' => run rest s'
      | None => None
      end
  end.

(** The states the page can be in. *)
Definition reachable (s : State) : Prop :=
  exists trace, run trace initial = Some s.

(* ================================================================== *)
(** ** The phases of the specification, read off the state *)
(* ================================================================== *)

(** The code has no phase variable.  A phase is what the session is waiting
    for: the one outstanding call, or, with none outstanding, the choice
    offered by the latest bubble while the input is disabled, or free text
    while it is enabled. *)
Inductive Phase :=
  | Idle
  | AwaitingPersonaReply
  | AwaitingStyleChoice
  | GeneratingBatch
  | AwaitingSatisfaction
  | AwaitingVariationFeedback
  | GeneratingVariation.

Definition latest (s : State) : option Message :=
  last (map Some (chatContainer s)) None.

Definition offers (className : string) (m : Message) : bool :=
  existsb (fun c => match c with
                    | ButtonContainer k _ => String.eqb k className
                    | ImageGridContainer _ => false
                    end) (msg_children m).

Definition latest_offers (className : string) (s : State) : bool :=
  match latest s with
  | Some m => offers className m
  | None => false
  end.

(** [None]: a state that is none of the seven phases (several calls
    outstanding, or the input disabled with nothing to wait for). *)
Definition phase_of (s : State) : option Phase :=
  if isLoading s then
    if isVariationRequest s then None
    else
      match inflight s with
      | [AwaitPersona _] => Some AwaitingPersonaReply
      | [AwaitImages _ _] => Some GeneratingBatch
      | [AwaitVariation _ _ _] => Some GeneratingVariation
      | [] =>
          if latest_offers "style-buttons-container" s then Some AwaitingStyleChoice
          else if latest_offers "satisfaction-buttons" s then Some AwaitingSatisfaction
          else None
      | _ => None
      end
  else
    match inflight s with
    | [] => Some (if isVariationRequest s then AwaitingVariationFeedback else Idle)
    | _ => None
    end.

(* ================================================================== *)
(** ** [JSON.parse] *)
(* ================================================================== *)

(** The parser of the platform, on the JSON grammar.  A string value is kept
    as its code units after escapes are decoded, a number as its lexeme. *)

Inductive JSON :=
  | JNull
  | JBool (b : bool)
  | JNumber (lexeme : string)
  | JString (units : list N)
  | JArray (elements : list JSON)
  | JObject (members : list (list N * JSON)).

Module Json.

Definition code (c : ascii) : nat := nat_of_ascii c.

Definition quote : nat := 34.
Definition backslash : nat := 92.

(** JSON white space: space, TAB, LF, CR. *)
Definition isWs (c : ascii) : bool :=
  let n := code c in
  ((n =? 32) || (n =? 9) || (n =? 10) || (n =? 13))%nat.

Fixpoint skipWs (s : string) : string :=
  match s with
  | String c r => if isWs c then skipWs r else s
  | EmptyString => EmptyString
  end.

Definition isDigit (c : ascii) : bool :=
  let n := code c in ((48 <=? n) && (n <=? 57))%nat.

(** The longest run of digits at the front, and what follows. *)
Fixpoint digits (s : string) : string * string :=
  match s with
  | String c r =>
      if isDigit c then let (d, rest) := digits r in (String c d, rest)
      else (EmptyString, s)
  | EmptyString => (EmptyString, EmptyString)
  end.

Definition hexValue (c : ascii) : option N :=
  let n := code c in
  if ((48 <=? n) && (n <=? 57))%nat then Some (N.of_nat (n - 48))
  else if ((65 <=? n) && (n <=? 70))%nat then Some (N.of_nat (n - 55))
  else if ((97 <=? n) && (n <=? 102))%nat then Some (N.of_nat (n - 87))
  else None.

Inductive StringMode :=
  | Plain
  | Escaped
  | Hex (remaining : nat) (value : N).

Definition push (u : N) (r : option (list N * string)) : option (list N * string) :=
  match r with
  | Some (us, rest) => Some (u :: us, rest)
  | None => None
  end.

(** A string literal after its opening quote, up to and including the
    closing one. *)
Fixpoint stringBody (m : StringMode) (s : string) : option (list N * string) :=
  match s with
  | EmptyString => None
  | String c r =>
      let n := code c in
      match m with
      | Plain =>
          if (n =? quote)%nat then Some ([], r)
          else if (n =? backslash)%nat then stringBody Escaped r
          else if (n <? 32)%nat then None
          else push (N.of_nat n) (stringBody Plain r)
      | Escaped =>
          if (n =? quote)%nat then push 34%N (stringBody Plain r)
          else if (n =? backslash)%nat then push 92%N (stringBody Plain r)
          else if (n =? 47)%nat then push 47%N (stringBody Plain r)   (* / *)
          else if (n =? 98)%nat then push 8%N (stringBody Plain r)    (* b *)
          else if (n =? 102)%nat then push 12%N (stringBody Plain r)  (* f *)
          else if (n =? 110)%nat then push 10%N (stringBody Plain r)  (* n *)
          else if (n =? 114)%nat then push 13%N (stringBody Plain r)  (* r *)
          else if (n =? 116)%nat then push 9%N (stringBody Plain r)   (* t *)
          else if (n =? 117)%nat then stringBody (Hex 4 0%N) r        (* u *)
          else None
      | Hex (S k) v =>
          match hexValue c with
          | Some d =>
              let v' := (16 * v + d)%N in
              match k with
              | O => push v' (stringBody Plain r)
              | S _ => stringBody (Hex k v') r
              end
          | None => None
          end
      | Hex O _ => None
      end
  end.

(** A number: an optional minus sign; an integer part without a leading
    zero (unless it is the single digit 0); an optional fraction, a dot and
    at least one digit; an optional exponent, [e] or [E], an optional sign
    and at least one digit.  Each piece returns its lexeme and what
    follows. *)
Definition minus (s : string) : string * string :=
  match s with
  | String c r => if (code c =? 45)%nat then ("-", r) else ("", s)
  | EmptyString => ("", s)
  end.

Definition integer (s : string) : option (string * string) :=
  let (int, rest) := digits s in
  match int with
  | EmptyString => None
  | String c EmptyString => Some (int, rest)
  | String c (String _ _) => if (code c =? 48)%nat then None else Some (int, rest)
  end.

Definition fraction (s : string) : option (string * string) :=
  match s with
  | String c r =>
      if (code c =? 46)%nat then
        let (d, rest) := digits r in
        match d with
        | EmptyString => None
        | String _ _ => Some (String c d, rest)
        end
      else Some ("", s)
  | EmptyString => Some ("", s)
  end.

Definition exponent (s : string) : option (string * string) :=
  match s with
  | String c r =>
      if ((code c =? 101) || (code c =? 69))%nat then
        let (sign, r1) :=
          match r with
          | String c' r' =>
              if ((code c' =? 43) || (code c' =? 45))%nat
              then (String c' "", r') else ("", r)
          | EmptyString => ("", r)
          end in
        let (d, rest) := digits r1 in
        match d with
        | EmptyString => None
        | String _ _ => Some ((String c sign ++ d)%string, rest)
        end
      else Some ("", s)
  | EmptyString => Some ("", s)
  end.

Definition number (s : string) : option (string * string) :=
  let (sign, s1) := minus s in
  match integer s1 with
  | Some (int, s2) =>
      match fraction s2 with
      | Some (f, s3) =>
          match exponent s3 with
          | Some (e, s4) => Some ((sign ++ int ++ f ++ e)%string, s4)
          | None => None
          end
      | None => None
      end
  | None => None
  end.

(** The result of a parsing function: a value and what follows it, a syntax
    error, or the fuel of the model used up. *)
Inductive Parsed (A : Type) :=
  | Ok (a : A) (rest : string)
  | SyntaxError
  | OutOfFuel.
Arguments Ok {A} a rest.
Arguments SyntaxError {A}.
Arguments OutOfFuel {A}.

(** [value], [elements] (after the opening bracket, at an element) and
    [members] (after the opening brace, at a key).  The fuel bounds the
    depth of the calls. *)
Fixpoint value (fuel : nat) (s : string) {struct fuel} : Parsed JSON :=
  match fuel with
  | O => OutOfFuel
  | S f =>
      match skipWs s with
      | EmptyString => SyntaxError
      | String c r as s0 =>
          let n := code c in
          if (n =? quote)%nat then
            match stringBody Plain r with
            | Some (us, rest) => Ok (JString us) rest
            | None => SyntaxError
            end
          else if (n =? 91)%nat then                                   (* [ *)
            match skipWs r with
            | String c' r' as r0 =>
                if (code c' =? 93)%nat then Ok (JArray []) r'
                else match elements f r0 with
                     | Ok l rest => Ok (JArray l) rest
                     | SyntaxError => SyntaxError
                     | OutOfFuel => OutOfFuel
                     end
            | EmptyString => SyntaxError
            end
          else if (n =? 123)%nat then                                  (* { *)
            match skipWs r with
            | String c' r' as r0 =>
                if (code c' =? 125)%nat then Ok (JObject []) r'
                else match members f r0 with
                     | Ok l rest => Ok (JObject l) rest
                     | SyntaxError => SyntaxError
                     | OutOfFuel => OutOfFuel
                     end
            | EmptyString => SyntaxError
            end
          else
            match JsString.stripPrefix "null" s0 with
            | Some rest => Ok JNull rest
            | None =>
            match JsString.stripPrefix "true" s0 with
            | Some rest => Ok (JBool true) rest
            | None =>
            match JsString.stripPrefix "false" s0 with
            | Some rest => Ok (JBool false) rest
            | None =>
            match number s0 with
            | Some (lexeme, rest) => Ok (JNumber lexeme) rest
            | None => SyntaxError
            end end end end
      end
  end
with elements (fuel : nat) (s : string) {struct fuel} : Parsed (list JSON) :=
  match fuel with
  | O => OutOfFuel
  | S f =>
      match value f s with
      | Ok v r =>
          match skipWs r with
          | String c r' =>
              if (code c =? 44)%nat then                               (* , *)
                match elements f r' with
                | Ok l rest => Ok (v :: l) rest
                | SyntaxError => SyntaxError
                | OutOfFuel => OutOfFuel
                end
              else if (code c =? 93)%nat then Ok [v] r'
              else SyntaxError
          | EmptyString => SyntaxError
          end
      | SyntaxError => SyntaxError
      | OutOfFuel => OutOfFuel
      end
  end
with members (fuel : nat) (s : string) {struct fuel} : Parsed (list (list N * JSON)) :=
  match fuel with
  | O => OutOfFuel
  | S f =>
      match skipWs s with
      | String c r =>
          if (code c =? quote)%nat then
            match stringBody Plain r with
            | Some (key, r1) =>
                match skipWs r1 with
                | String c1 r2 =>
                    if (code c1 =? 58)%nat then                        (* : *)
                      match value f r2 with
                      | Ok v r3 =>
                          match skipWs r3 with
                          | String c3 r4 =>
                              if (code c3 =? 44)%nat then
                                match members f r4 with
                                | Ok l rest => Ok ((key, v) :: l) rest
                                | SyntaxError => SyntaxError
                                | OutOfFuel => OutOfFuel
                                end
                              else if (code c3 =? 125)%nat then Ok [(key, v)] r4
                              else SyntaxError
                          | EmptyString => SyntaxError
                          end
                      | SyntaxError => SyntaxError
                      | OutOfFuel => OutOfFuel
                      end
                    else SyntaxError
                | EmptyString => SyntaxError
                end
            | None => SyntaxError
            end
          else SyntaxError
      | EmptyString => SyntaxError
      end
  end.

(** The fuel [parse] gives [value]; it is enough for every text
    ([Json_fuel_suffices]). *)
Definition fuel_for (text : string) : nat := 2 * String.length text + 2.

(** [JSON.parse(text)]; [None] is the [SyntaxError]. *)
Definition parse (text : string) : option JSON :=
  match value (fuel_for text) text with
  | Ok v rest =>
      match skipWs rest with
      | EmptyString => Some v
      | String _ _ => None
      end
  | SyntaxError => None
  | OutOfFuel => None
  end.

Definition units (s : string) : list N :=
  map (fun c => N.of_nat (code c)) (list_ascii_of_string s).

(** [object[key]] for a key the prototypes do not define: the last member
    of that name of an object, [None] ([undefined]) otherwise. *)
Fixpoint lookup (key : list N) (l : list (list N * JSON)) : option JSON :=
  match l with
  | [] => None
  | (k, v) :: r =>
      match lookup key r with
      | Some v' => Some v'
      | None => if list_eq_dec N.eq_dec k key then Some v else None
      end
  end.

Definition property (key : string) (v : JSON) : option JSON :=
  match v with
  | JObject l => lookup (units key) l
  | _ => None
  end.

End Json.

(* ================================================================== *)
(** ** [getPersonaResponse] *)
(* ================================================================== *)

Definition LF : ascii := ascii_of_nat 10.

(** [.trim().replace(/^```json\n?/, '').replace(/```$/, '')] *)
Definition stripFences (text : string) : string :=
  let s1 := JsString.trim text in
  let s2 :=
    match JsString.stripPrefix "```json" s1 with
    | Some (String c r as after) => if Ascii.eqb c LF then r else after
    | Some EmptyString => EmptyString
    | None => s1
    end in
  match JsString.stripSuffix "```" s2 with
  | Some before => before
  | None => s2
  end.

(** The function from its [await] on: [response] is how the remote call
    settled, a resolved response given by its [text] ([None] when the
    response has none).  [Rejected] in the result is the [Error] the [catch]
    throws; [Resolved v] is [jsonResponse as PersonaResponse], the parsed
    value itself. *)
Definition getPersonaResponse (response : Settled (option string)) : Settled JSON :=
  match response with
  | Rejected => Rejected
  | Resolved None => Rejected
  | Resolved (Some text) =>
      match Json.parse (stripFences text) with
      | Some jsonResponse => Resolved jsonResponse
      | None => Rejected
      end
  end.

(** The value has the two fields of [PersonaResponse] at their types. *)
Definition is_PersonaResponse (v : JSON) : bool :=
  match Json.property "isValidRequest" v, Json.property "botResponse" v with
  | Some (JBool _), Some (JString _) => true
  | _, _ => false
  end.

(* ================================================================== *)
(** ** A session, event by event *)
(* ================================================================== *)

(** The happy path of the specification and its variation round trip: a
    prompt, a valid classification, the cartoon style, four images, vary on
    index 2, a feedback text. *)
Module Scenario.

Definition cartoon : Button := mkButton "style-button" "cartoon" "Cartoon".

Definition events : list Event :=
  [ Input "a soccer player scoring a goal";
    SubmitForm;
    PersonaSettled 0 (Resolved (mkPersonaResponse true "Great idea!"));
    Click (ButtonOf 1 cartoon);
    ImagesSettled 0 (Resolved ["img0"; "img1"; "img2"; "img3"]);
    Click (VaryButton 2);
    Input "make the jersey red";
    SubmitForm ].

(** The state after the first [n] events. *)
Definition after (n : nat) : State :=
  match run (firstn n events) initial with
  | Some s => s
  | None => initial
  end.

(** The variation call then settles one way or another. *)
Definition after_variation (o : Settled (option (list Candidate))) : State :=
  match step (ContentSettled 0 o) (after 8) with
  | Some s => s
  | None => initial
  end.

(** The state after a trace. *)
Definition state_after (trace : list Event) : State :=
  match run trace initial with
  | Some s => s
  | None => initial
  end.

(** After the batch, a second request is submitted. *)
Definition second_request : list Event :=
  firstn 5 events ++ [Input "a tennis serve"; SubmitForm].

Definition valid_reply : Event :=
  PersonaSettled 0 (Resolved (mkPersonaResponse true "Nice one!")).

(** The reply is valid and the user, before picking a style, clicks the wand
    of an image of the earlier grid. *)
Definition wand_before_style : list Event :=
  second_request ++ [valid_reply; Click (VaryButton 0)].

(** The user clicks the wand while the persona call is outstanding; then the
    valid reply arrives. *)
Definition wand_before_reply : list Event :=
  second_request ++ [Click (VaryButton 0); valid_reply].


End Scenario.

(* ================================================================== *)
(** ** Vocabulary of the statements *)
(* ================================================================== *)

(** The parts the loop of [generateImageVariation] reads: those of the first
    candidate, none when there is no candidate; [None] when the first
    candidate has no parts to iterate over. *)
Definition first_candidate_parts (candidates : option (list Candidate))
    : option (list Part) :=
  match candidates with
  | Some (first :: _) => first
  | Some [] => Some []
  | None => Some []
  end.

(** The inline images among the parts, in part order. *)
Fixpoint inline_images (parts : list Part) : list string :=
  match parts with
  | [] => []
  | InlineDataPart data :: rest => data :: inline_images rest
  | TextPart _ :: rest => inline_images rest
  end.

(** What the specification says the variation call returns: the first
    inline image found, or none. *)
Definition first_inline_image (parts : list Part) : option string :=
  hd_error (inline_images parts).

(** The last inline image, or [otherwise] when there is none. *)
Definition last_inline_image (parts : list Part) (otherwise : option string)
    : option string :=
  last (map Some (inline_images parts)) otherwise.

(** One image bubble per image, on consecutive nodes. *)
Fixpoint imageBubbles (node : nat) (feedbackPrompt : string) (images : list string)
    : list Message :=
  match images with
  | [] => []
  | base64 :: rest =>
      mkMessage node bot (InnerHTML (ImageContainerHTML base64 feedbackPrompt)) []
      :: imageBubbles (S node) feedbackPrompt rest
  end.

(** The bubbles that close a variation: the satisfaction question after an
    image, the apology and then the satisfaction question after none. *)
Definition closingBubbles (node : nat) (foundImage : bool) : list Message :=
  if foundImage then
    [ mkMessage node bot
        (InnerHTML (Text text_how_does_this_look))
        [satisfaction_buttons_container] ]
  else
    [ mkMessage node bot
        (InnerHTML (Text text_no_variation))
        [];
      mkMessage (S node) bot
        (InnerHTML (Text text_previous_image))
        [satisfaction_buttons_container] ].

(** The invariant the specification states for the two image variables: one
    of them is empty. *)
Definition mutually_exclusive (s : State) : Prop :=
  lastGeneratedImages s = [] \/ lastGeneratedImage s = None.

(** What [\n?] of the first pattern takes off the front. *)
Definition after_optional_newline (s : string) : string :=
  match s with
  | String c r => if Ascii.eqb c LF then r else s
  | EmptyString => EmptyString
  end.

Definition newline : string := String LF "".

(** What [setLoading] and the two places that set [isVariationRequest]
    keep true: the input and the send button are disabled exactly while
    [isLoading], and no feedback is pending while [isLoading]. *)
Definition consistent (s : State) : Prop :=
  promptInput_disabled s = isLoading s
  /\ sendButton_disabled s = isLoading s
  /\ (isLoading s = true -> isVariationRequest s = false).

(** Some bubble of the chat still offers the buttons of that class. *)
Definition chat_offers (className : string) (s : State) : bool :=
  existsb (offers className) (chatContainer s).

(** The loader bubble an outstanding call will remove, if it has one. *)
Definition loader_of (p : Pending) : option nat :=
  match p with
  | AwaitPersona _ => None
  | AwaitImages loaderMessage _ => Some loaderMessage
  | AwaitVariation loaderMessage _ _ => Some loaderMessage
  end.

(** The loader bubbles of the outstanding calls, in the order of the
    calls. *)
Definition loaders (calls : list Pending) : list nat :=
  flat_map (fun p => match loader_of p with Some l => [l] | None => [] end) calls.

Definition is_loader (m : Message) : bool :=
  match msg_inner m with
  | LoaderDots => true
  | InnerHTML _ => false
  end.

(** A bubble has nothing below its text, or one of the three things the
    code appends: the style buttons, the satisfaction buttons, a grid. *)
Definition plain_children (m : Message) : Prop :=
  msg_children m = []
  \/ msg_children m = [style_buttons_container]
  \/ msg_children m = [satisfaction_buttons_container]
  \/ exists items, msg_children m = [ImageGridContainer items].

(** The shape the chat keeps: the nodes are distinct and below the next
    node, every bubble is plain, and the loader bubbles are those of the
    outstanding calls. *)
Definition tidy (chat : list Message) (next : nat) (calls : list Pending) : Prop :=
  (forall m, In m chat -> msg_node m < next)
  /\ NoDup (map msg_node chat)
  /\ (forall m, In m chat -> plain_children m)
  /\ loaders calls = map msg_node (filter is_loader chat).

Definition wellformed (s : State) : Prop :=
  tidy (chatContainer s) (next_node s) (inflight s).

(** The button is offered somewhere in the bubble of that node. *)
Definition button_present (message : nat) (b : Button) (s : State) : bool :=
  target_present (ButtonOf message b) s.

Definition awaits_persona (p : Pending) : bool :=
  match p with
  | AwaitPersona _ => true
  | AwaitImages _ _ => false
  | AwaitVariation _ _ _ => false
  end.

(** A prompt is stored, or nothing yet asks for one: no bubble offers the
    style buttons and no persona call is outstanding. *)
Definition prompted (s : State) : Prop :=
  JsString.truthy (lastUserPrompt s) = true
  \/ (chat_offers "style-buttons-container" s = false
      /\ existsb awaits_persona (inflight s) = false).

(** The string holds none of the characters that end a double-quoted
    attribute value or start a tag or a character reference: a double quote,
    an ampersand, a less-than sign.  Such a string put in [innerHTML], as
    text or inside the quotes of an attribute, adds no element to the
    document and reads back as itself. *)
Fixpoint markup_free (s : string) : bool :=
  match s with
  | EmptyString => true
  | String c r =>
      let n := nat_of_ascii c in
      negb (Nat.eqb n 34) && negb (Nat.eqb n 38) && negb (Nat.eqb n 60)
      && markup_free r
  end.

(** The strings an event brings to the page are free of markup: the text
    typed, the reply of the persona, the image data. *)
Definition plain_event (e : Event) : bool :=
  match e with
  | Input text => markup_free text
  | PersonaSettled _ (Resolved r) => markup_free (botResponse r)
  | ImagesSettled _ (Resolved images) => forallb markup_free images
  | ContentSettled _ (Resolved (Some candidates)) =>
      forallb (fun c => match c with
                        | Some parts => forallb markup_free (inline_images parts)
                        | None => true
                        end) candidates
  | _ => true
  end.

(** The states the page can be in when nothing typed or received carried
    markup.  There the buttons of the document are those of the containers
    the code appends, which is what [target_present] looks at; a bubble whose
    text carries markup of its own can hold other elements. *)
Definition plainly_reachable (s : State) : Prop :=
  exists trace, forallb plain_event trace = true /\ run trace initial = Some s.

(* ================================================================== *)
(** * Properties *)
(* ================================================================== *)

(** ** Strings *)

Lemma trimStart_allWhiteSpace (s : string) :
  JsString.allWhiteSpace s = true -> JsString.trimStart s = "".
Proof.
  induction s as [|c r IH]; simpl; [reflexivity|].
  intros H. apply andb_true_iff in H as [Hc Hr].
  rewrite Hc. now apply IH.
Qed.

Lemma trim_allWhiteSpace (s : string) :
  JsString.allWhiteSpace s = true -> JsString.trim s = "".
Proof.
  intros H. unfold JsString.trim. now rewrite trimStart_allWhiteSpace.
Qed.

Lemma trimEnd_empty (s : string) :
  JsString.trimEnd s = "" -> JsString.allWhiteSpace s = true.
Proof.
  induction s as [|c r IH]; simpl; [reflexivity|].
  destruct (JsString.trimEnd r) eqn:E.
  - destruct (JsString.isWhiteSpace c); [intros _; now rewrite IH | discriminate].
  - discriminate.
Qed.

(** The test of the submit listener, [prompt] falsy after [trim], is the
    test "nothing but white space". *)
Lemma trim_empty_iff (s : string) :
  JsString.truthy (JsString.trim s) = false <-> JsString.allWhiteSpace s = true.
Proof.
  split.
  - unfold JsString.trim. induction s as [|c r IH]; simpl; [reflexivity|].
    destruct (JsString.isWhiteSpace c) eqn:Hc; simpl.
    + exact IH.
    + rewrite Hc. destruct (JsString.trimEnd r); simpl; discriminate.
  - intros H. now rewrite trim_allWhiteSpace.
Qed.

(** ** The submit listener *)

(** C4.  A submission while [isLoading] is true is ignored, whatever the
    text in the input and whatever the rest of the state: the listener
    returns the state it was given, so no variable of the session changes, no
    bubble is added to the chat, no call is issued, and the phase is the one
    before. *)
Theorem submit_while_busy_is_ignored (s : State) (text : string) :
  isLoading s = true ->
  let s0 := set_promptInput_value text s in
  onSubmit s0 = s0
  /\ step SubmitForm s0 = Some s0
  /\ chatContainer (onSubmit s0) = chatContainer s
  /\ inflight (onSubmit s0) = inflight s
  /\ phase_of (onSubmit s0) = phase_of s.
Proof.
  intros H s0.
  assert (E : onSubmit s0 = s0).
  { unfold onSubmit, s0. simpl. now rewrite H. }
  unfold step. rewrite E. repeat split.
Qed.

Lemma submit_while_busy_is_ignored_witness :
  let s := setLoading true initial in
  isLoading s = true /\ onSubmit (set_promptInput_value "a tennis serve" s)
                        = set_promptInput_value "a tennis serve" s.
Proof.
  split; [reflexivity|].
  apply (submit_while_busy_is_ignored (setLoading true initial) "a tennis serve").
  reflexivity.
Defined.

(** C10.  A submission whose text is empty or white space only does
    nothing, busy or not: the listener returns the state it was given (the
    text stays in the input, no user bubble, no call, the feedback flag as it
    was). *)
Theorem blank_submission_is_ignored (s : State) :
  JsString.allWhiteSpace (promptInput_value s) = true ->
  onSubmit s = s
  /\ step SubmitForm s = Some s.
Proof.
  intros H.
  assert (E : onSubmit s = s).
  { unfold onSubmit. destruct (isLoading s); [reflexivity|].
    now rewrite (trim_allWhiteSpace _ H). }
  unfold step. now rewrite E.
Qed.

Lemma blank_submission_is_ignored_witness :
  let s := set_isVariationRequest true (set_promptInput_value "   " initial) in
  isLoading s = false /\ onSubmit s = s.
Proof.
  split; [reflexivity|].
  apply (blank_submission_is_ignored
           (set_isVariationRequest true (set_promptInput_value "   " initial))).
  reflexivity.
Defined.

(** ** The vary button *)

Lemma image_at_out_of_bounds (images : list string) (i : Z) :
  (i < 0 \/ Z.of_nat (length images) <= i)%Z -> image_at images i = None.
Proof.
  intros H. unfold image_at.
  destruct (i <? 0)%Z eqn:E; [reflexivity|].
  apply Z.ltb_ge in E. apply nth_error_None. lia.
Qed.

(** C5.  A click on a vary button whose index is outside
    [lastGeneratedImages] changes nothing: the listener returns the state it
    was given ([lastGeneratedImage], [isVariationRequest], [isLoading] and
    the chat included), and there is no path on which it throws. *)
Theorem vary_out_of_bounds_is_ignored (s : State) (i : Z) :
  (i < 0 \/ Z.of_nat (length (lastGeneratedImages s)) <= i)%Z ->
  onClick (VaryButton i) s = s.
Proof.
  intros H. unfold onClick. now rewrite image_at_out_of_bounds.
Qed.

Lemma vary_out_of_bounds_is_ignored_witness :
  let s := set_lastGeneratedImages ["A"; "B"; "C"; "D"] initial in
  onClick (VaryButton 4) s = s /\ onClick (VaryButton (-1)) s = s.
Proof.
  split.
  - apply (vary_out_of_bounds_is_ignored
             (set_lastGeneratedImages ["A"; "B"; "C"; "D"] initial) 4).
    right. simpl. lia.
  - apply (vary_out_of_bounds_is_ignored
             (set_lastGeneratedImages ["A"; "B"; "C"; "D"] initial) (-1)).
    left. lia.
Defined.

(** ** Reading a phase back *)

Ltac conjuncts := repeat match goal with |- _ /\ _ => split end.

Ltac split_phase H :=
  unfold phase_of in H;
  destruct (isLoading _) eqn:?, (isVariationRequest _) eqn:?;
  try discriminate H;
  destruct (inflight _) as [|[] [|]] eqn:?;
  try discriminate H;
  repeat match type of H with
         | context [if ?b then _ else _] => destruct b eqn:?
         end;
  try discriminate H.

Lemma phase_AwaitingPersonaReply (s : State) :
  phase_of s = Some AwaitingPersonaReply ->
  isLoading s = true /\ isVariationRequest s = false
  /\ exists prompt, inflight s = [AwaitPersona prompt].
Proof.
  intros H. split_phase H. repeat split; eauto.
Qed.

Lemma phase_GeneratingBatch (s : State) :
  phase_of s = Some GeneratingBatch ->
  isLoading s = true /\ isVariationRequest s = false
  /\ exists loaderMessage prompt, inflight s = [AwaitImages loaderMessage prompt].
Proof.
  intros H. split_phase H. repeat split; eauto.
Qed.

Lemma phase_GeneratingVariation (s : State) :
  phase_of s = Some GeneratingVariation ->
  isLoading s = true /\ isVariationRequest s = false
  /\ exists loaderMessage base feedbackPrompt,
       inflight s = [AwaitVariation loaderMessage base feedbackPrompt].
Proof.
  intros H. split_phase H. repeat split; eauto.
Qed.

Lemma phase_AwaitingSatisfaction (s : State) :
  phase_of s = Some AwaitingSatisfaction ->
  isLoading s = true /\ isVariationRequest s = false /\ inflight s = []
  /\ latest_offers "satisfaction-buttons" s = true.
Proof.
  intros H. split_phase H. repeat split; eauto.
Qed.

Lemma phase_when_input_enabled (s : State) :
  isLoading s = false -> inflight s = [] ->
  phase_of s = Some (if isVariationRequest s then AwaitingVariationFeedback else Idle).
Proof.
  intros H1 H2. unfold phase_of. now rewrite H1, H2.
Qed.

Lemma nth_error_singleton {A : Type} (x y : A) (k : nat) :
  nth_error [x] k = Some y -> k = 0 /\ x = y.
Proof.
  destruct k as [|k]; simpl.
  - intros [= ->]. now split.
  - destruct k; discriminate.
Qed.

Lemma latest_after_append (s : State) (c : list Message) (m : Message) :
  chatContainer s = c ++ [m] -> latest s = Some m.
Proof.
  intros H. unfold latest. rewrite H, map_app. simpl. apply last_last.
Qed.

(** ** An empty batch *)




(** ** A valid request *)

(** The continuation of [handleUserPrompt] on a valid request.  When
    [getPersonaResponse] resolves with [isValidRequest] true, the
    continuation adds exactly one bubble, from the bot,
    carrying the style buttons (realistic, cartoon, digital art, cinematic),
    and touches nothing else: [isLoading] and the disabled input stay as they
    were.  Coming from the phase AwaitingPersonaReply the session is then in
    the phase AwaitingStyleChoice, still busy, and a submission is
    ignored. *)
Theorem valid_request_offers_style_choice
    (s : State) (k : nat) (prompt : string) (r : PersonaResponse) :
  nth_error (inflight s) k = Some (AwaitPersona prompt) ->
  isValidRequest r = true ->
  exists s',
    step (PersonaSettled k (Resolved r)) s = Some s'
    /\ chatContainer s'
       = chatContainer s
         ++ [mkMessage (next_node s) bot
               (InnerHTML (Text (botResponse r
                                 ++ text_choose_style)%string))
               [ButtonContainer "style-buttons-container" style_buttons]]
    /\ map btn_data style_buttons = ["realistic"; "cartoon"; "digital art"; "cinematic"]
    /\ isLoading s' = isLoading s
    /\ promptInput_disabled s' = promptInput_disabled s
    /\ sendButton_disabled s' = sendButton_disabled s
    /\ lastGeneratedImage s' = lastGeneratedImage s
    /\ lastGeneratedImages s' = lastGeneratedImages s
    /\ isVariationRequest s' = isVariationRequest s
    /\ (phase_of s = Some AwaitingPersonaReply ->
        phase_of s' = Some AwaitingStyleChoice
        /\ isLoading s' = true
        /\ onSubmit s' = s').
Proof.
  intros Hk Hvalid. eexists. split.
  { unfold step. rewrite Hk. reflexivity. }
  unfold handleUserPrompt_resume. rewrite Hvalid. simpl.
  conjuncts; try reflexivity.
  intros Hp. apply phase_AwaitingPersonaReply in Hp as (Hbusy & Hflag & p & Hin).
  rewrite Hin in Hk. apply nth_error_singleton in Hk as [-> _].
  conjuncts.
  - unfold phase_of. simpl. rewrite Hbusy, Hflag, Hin. simpl.
    unfold latest_offers.
    erewrite latest_after_append by (simpl; reflexivity).
    reflexivity.
  - exact Hbusy.
  - unfold onSubmit. simpl. now rewrite Hbusy.
Qed.

Lemma valid_request_offers_style_choice_witness :
  phase_of (Scenario.after 2) = Some AwaitingPersonaReply
  /\ exists s',
       step (PersonaSettled 0 (Resolved (mkPersonaResponse true "Great idea!")))
            (Scenario.after 2) = Some s'
       /\ phase_of s' = Some AwaitingStyleChoice
       /\ isLoading s' = true.
Proof.
  split; [reflexivity|].
  destruct (valid_request_offers_style_choice (Scenario.after 2) 0
              "a soccer player scoring a goal"
              (mkPersonaResponse true "Great idea!") eq_refl eq_refl)
    as (s' & Hstep & _ & _ & _ & _ & _ & _ & _ & _ & Hphase).
  exists s'. split; [assumption|].
  destruct (Hphase eq_refl) as (H1 & H2 & _). now split.
Defined.

(** C8, on the code.  A second request is classified as valid while the
    grid of the first one is still in the chat.  The reply adds the one
    bubble with the style buttons and the session is in AwaitingStyleChoice
    with the input disabled, as the comment in [handleUserPrompt] says it is
    kept.  A click on the wand of an image of the grid is accepted there:
    the listener calls [setLoading(false)] although no style has been picked.
    The style buttons are still in the document, the input and the send
    button are enabled, text can be typed, and the submission is taken as
    feedback and issues the variation call.  Likewise when the wand is
    clicked while the persona call is outstanding: after the valid reply the
    style buttons are offered with the input enabled. *)
Theorem wand_click_unblocks_input_before_a_style_is_picked :
  let asked := Scenario.state_after (Scenario.second_request ++ [Scenario.valid_reply]) in
  let s := Scenario.state_after Scenario.wand_before_style in
  let early := Scenario.state_after Scenario.wand_before_reply in
  phase_of (Scenario.state_after Scenario.second_request) = Some AwaitingPersonaReply
  /\ run (Scenario.second_request ++ [Scenario.valid_reply]) initial = Some asked
  /\ phase_of asked = Some AwaitingStyleChoice
  /\ isLoading asked = true
  /\ promptInput_disabled asked = true
  /\ step (Click (VaryButton 0)) asked = Some s
  /\ target_present (ButtonOf 6 Scenario.cartoon) s = true
  /\ isLoading s = false
  /\ promptInput_disabled s = false
  /\ sendButton_disabled s = false
  /\ phase_of s = Some AwaitingVariationFeedback
  /\ (exists s',
        run [Input "more speed"; SubmitForm] s = Some s'
        /\ inflight s' = [AwaitVariation 9 "img0" "more speed"])
  /\ run Scenario.wand_before_reply initial = Some early
  /\ target_present (ButtonOf 7 Scenario.cartoon) early = true
  /\ isLoading early = false
  /\ promptInput_disabled early = false.
Proof.
  cbv zeta. conjuncts; try (vm_compute; reflexivity).
  eexists. split; vm_compute; reflexivity.
Qed.

(** ** Satisfied, or another idea *)

(** C9.  A click on the satisfied button, and likewise on the retry button,
    sets [lastGeneratedImage] to null and [lastGeneratedImages] to the empty
    array and re-enables the input ([isLoading] false) in whatever state it
    lands.  Coming from the phase AwaitingSatisfaction the session is then in
    the phase Idle. *)
Theorem satisfied_or_retry_clears_and_idles
    (s : State) (message : nat) (choice label : string) :
  choice = "satisfied" \/ choice = "retry" ->
  let s' := onClick (ButtonOf message (mkButton "satisfaction-button" choice label)) s in
  lastGeneratedImage s' = None
  /\ lastGeneratedImages s' = []
  /\ isLoading s' = false
  /\ promptInput_disabled s' = false
  /\ sendButton_disabled s' = false
  /\ (phase_of s = Some AwaitingSatisfaction -> phase_of s' = Some Idle).
Proof.
  intros [-> | ->] s'; subst s'; simpl; conjuncts; try reflexivity.
  all: intros Hp; apply phase_AwaitingSatisfaction in Hp as (_ & Hflag & Hin & _).
  all: unfold phase_of; simpl; now rewrite Hin, Hflag.
Qed.

Lemma satisfied_or_retry_clears_and_idles_witness :
  let s := Scenario.after_variation (Resolved (Some [Some [InlineDataPart "img4"]])) in
  phase_of s = Some AwaitingSatisfaction
  /\ lastGeneratedImage s = Some "img4"
  /\ let s' := onClick (ButtonOf 9 (mkButton "satisfaction-button" "satisfied"
                                             "I'm satisfied")) s in
     lastGeneratedImage s' = None
     /\ lastGeneratedImages s' = []
     /\ phase_of s' = Some Idle.
Proof.
  split; [reflexivity|]. split; [reflexivity|].
  destruct (satisfied_or_retry_clears_and_idles
              (Scenario.after_variation (Resolved (Some [Some [InlineDataPart "img4"]])))
              9 "satisfied" "I'm satisfied" (or_introl eq_refl))
    as (H1 & H2 & _ & _ & _ & Hphase).
  cbv zeta. split; [exact H1|]. split; [exact H2|].
  apply Hphase. reflexivity.
Defined.

(** ** The variation call *)

Lemma last_cons_some {A : Type} (x : A) (l : list A) (d : option A) :
  last (map Some (x :: l)) d = last (map Some l) (Some x).
Proof.
  revert x d. induction l as [|y l IH]; intros x d; [reflexivity|].
  change (last (map Some (x :: y :: l)) d) with (last (map Some (y :: l)) d).
  rewrite !IH. reflexivity.
Qed.

(** The loop over the parts, from any state and any [foundImage]. *)
Lemma variation_parts_loop (feedbackPrompt : string) (parts : list Part) :
  forall (s : State) (found : bool),
    let r := fold_left (variation_part feedbackPrompt) parts (s, found) in
    lastGeneratedImage (fst r) = last_inline_image parts (lastGeneratedImage s)
    /\ snd r = found || (0 <? length (inline_images parts))%nat
    /\ chatContainer (fst r)
       = chatContainer s ++ imageBubbles (next_node s) feedbackPrompt (inline_images parts)
    /\ next_node (fst r) = next_node s + length (inline_images parts)
    /\ isLoading (fst r) = isLoading s
    /\ promptInput_disabled (fst r) = promptInput_disabled s
    /\ sendButton_disabled (fst r) = sendButton_disabled s
    /\ lastGeneratedImages (fst r) = lastGeneratedImages s
    /\ isVariationRequest (fst r) = isVariationRequest s
    /\ inflight (fst r) = inflight s.
Proof.
  induction parts as [|part rest IH]; intros s found r; subst r.
  - simpl. unfold last_inline_image. simpl.
    rewrite orb_false_r, app_nil_r, Nat.add_0_r. conjuncts; reflexivity.
  - destruct part as [text | data].
    + simpl. apply IH.
    + pose (s1 := addMessage_ (ImageContainerHTML data feedbackPrompt) bot no_options
                    (set_lastGeneratedImage (Some data) s)).
      change (fold_left (variation_part feedbackPrompt) (InlineDataPart data :: rest)
                        (s, found))
        with (fold_left (variation_part feedbackPrompt) rest (s1, true)).
      destruct (IH s1 true) as (H1 & H2 & H3 & H4 & H5 & H6 & H7 & H8 & H9 & H10).
      rewrite H1, H2, H3, H4, H5, H6, H7, H8, H9, H10.
      unfold last_inline_image. simpl inline_images.
      rewrite last_cons_some. subst s1. simpl.
      rewrite orb_true_r, <- app_assoc, Nat.add_succ_r.
      conjuncts; reflexivity.
Qed.

(** The continuation for a resolved response, by what its first candidate
    gives the loop. *)
Lemma variation_resume_cases
    (s : State) (loaderMessage : nat) (feedbackPrompt : string)
    (candidates : option (list Candidate)) :
  generateImageVariation_resume loaderMessage feedbackPrompt (Resolved candidates) s
  = match first_candidate_parts candidates with
    | Some parts =>
        let r := fold_left (variation_part feedbackPrompt) parts
                           (removeChild loaderMessage s, false) in
        if snd r
        then addMessage_ (Text text_how_does_this_look) bot satisfaction_option (fst r)
        else addMessage_ (Text text_previous_image) bot satisfaction_option
               (addMessage_ (Text text_no_variation) bot no_options (fst r))
    | None => removeChild loaderMessage s
    end.
Proof.
  unfold generateImageVariation_resume.
  destruct candidates as [[|[parts|] others]|]; cbn [first_candidate_parts];
    try reflexivity.
  cbv zeta. destruct (fold_left _ parts _) as [s2 found]. reflexivity.
Qed.

(** C3, as the code has it.  For a response that has no candidate, or whose
    first candidate carries parts, the loop handles every inline image of the
    first candidate, in part order: each one gets its own image bubble and
    each one is stored in [lastGeneratedImage], so that the variable ends as
    the last of them; with exactly one image that is the image.  With no
    inline image (or no candidate) [lastGeneratedImage] is left as it was, and
    the apology and the satisfaction question are added: no error.  The
    loader bubble is removed in both cases and [isLoading] is not touched. *)
Theorem variation_shows_every_image_and_keeps_the_last
    (s : State) (loaderMessage : nat) (feedbackPrompt : string)
    (candidates : option (list Candidate)) (parts : list Part) :
  first_candidate_parts candidates = Some parts ->
  let images := inline_images parts in
  let s' := generateImageVariation_resume loaderMessage feedbackPrompt
              (Resolved candidates) s in
  lastGeneratedImage s' = last_inline_image parts (lastGeneratedImage s)
  /\ chatContainer s'
     = chatContainer (removeChild loaderMessage s)
       ++ imageBubbles (next_node s) feedbackPrompt images
       ++ closingBubbles (next_node s + length images) (0 <? length images)%nat
  /\ (forall image, images = [image] ->
      lastGeneratedImage s' = Some image /\ first_inline_image parts = Some image)
  /\ (images = [] -> lastGeneratedImage s' = lastGeneratedImage s)
  /\ lastGeneratedImages s' = lastGeneratedImages s
  /\ isLoading s' = isLoading s.
Proof.
  intros Hparts images s'.
  assert (E : s' =
    let r := fold_left (variation_part feedbackPrompt) parts
                       (removeChild loaderMessage s, false) in
    if snd r
    then addMessage_ (Text text_how_does_this_look) bot satisfaction_option (fst r)
    else addMessage_ (Text text_previous_image) bot satisfaction_option
           (addMessage_ (Text text_no_variation) bot no_options (fst r))).
  { subst s'. now rewrite variation_resume_cases, Hparts. }
  destruct (variation_parts_loop feedbackPrompt parts (removeChild loaderMessage s) false)
    as (H1 & H2 & H3 & H4 & H5 & _ & _ & H8 & _).
  cbv zeta in E. fold images in H2, H3, H4.
  assert (Himg : lastGeneratedImage s' = last_inline_image parts (lastGeneratedImage s)).
  { rewrite E. destruct (snd _); simpl; exact H1. }
  conjuncts.
  - exact Himg.
  - rewrite E, H2. simpl orb.
    destruct (0 <? length images)%nat; simpl; rewrite H3, H4; simpl;
      rewrite <- !app_assoc; reflexivity.
  - intros image Hone. rewrite Himg. unfold last_inline_image, first_inline_image.
    fold images. rewrite Hone. split; reflexivity.
  - intros Hnone. rewrite Himg. unfold last_inline_image. fold images.
    rewrite Hnone. reflexivity.
  - rewrite E. destruct (snd _); simpl; exact H8.
  - rewrite E. destruct (snd _); simpl; exact H5.
Qed.

Lemma variation_shows_every_image_and_keeps_the_last_witness :
  let s' := generateImageVariation_resume 7 "make the jersey red"
              (Resolved (Some [Some [TextPart "Here you go"; InlineDataPart "img4"]]))
              (Scenario.after 8) in
  lastGeneratedImage (Scenario.after 8) = Some "img2"
  /\ lastGeneratedImage s' = Some "img4".
Proof.
  split; [vm_compute; reflexivity|].
  destruct (variation_shows_every_image_and_keeps_the_last
              (Scenario.after 8) 7 "make the jersey red"
              (Some [Some [TextPart "Here you go"; InlineDataPart "img4"]])
              [TextPart "Here you go"; InlineDataPart "img4"] eq_refl)
    as (_ & _ & Hone & _).
  destruct (Hone "img4" eq_refl) as [H _]. exact H.
Defined.

(** C3, as the specification has it, fails on a response with two inline
    images: the session keeps the second one, not the first. *)
Lemma variation_keeps_the_last_image_not_the_first :
  let parts := [InlineDataPart "first"; TextPart "and"; InlineDataPart "second"] in
  let s' := Scenario.after_variation (Resolved (Some [Some parts])) in
  first_inline_image parts = Some "first"
  /\ lastGeneratedImage s' = Some "second"
  /\ lastGeneratedImage s' <> first_inline_image parts.
Proof.
  cbv zeta. split; [reflexivity|]. split; [vm_compute; reflexivity|].
  vm_compute. discriminate.
Qed.

(** The [catch] of [generateImageVariation]: the loader goes, the error
    bubble comes, and that is all; [isLoading] and the disabled input are left
    as [setLoading(true)] set them. *)
Lemma variation_rejected_only_apologises
    (s : State) (loaderMessage : nat) (feedbackPrompt : string) :
  let s' := generateImageVariation_resume loaderMessage feedbackPrompt Rejected s in
  chatContainer s'
  = chatContainer (removeChild loaderMessage s)
    ++ [mkMessage (next_node s) bot
          (InnerHTML (Text text_variation_error))
          []]
  /\ isLoading s' = isLoading s
  /\ promptInput_disabled s' = promptInput_disabled s
  /\ sendButton_disabled s' = sendButton_disabled s.
Proof.
  cbv zeta. conjuncts; reflexivity.
Qed.

(** The [catch] of [generateImage], for comparison, re-enables the input. *)
Lemma images_rejected_reenables_input (s : State) (loaderMessage : nat) :
  let s' := generateImage_resume loaderMessage Rejected s in
  isLoading s' = false /\ promptInput_disabled s' = false /\ sendButton_disabled s' = false.
Proof.
  cbv zeta. conjuncts; reflexivity.
Qed.

(** C1, on the code.  In the variation round trip of the specification the
    call is rejected: the session was in GeneratingVariation; afterwards the
    latest bubble is the error message, without buttons, no bubble of the chat
    offers the satisfaction buttons, [isLoading] is still true and the input
    and the send button are still disabled, so that typing is impossible and a
    submission is ignored; the state is none of the phases. *)
Theorem variation_failure_leaves_input_disabled :
  let s := Scenario.after_variation Rejected in
  phase_of (Scenario.after 8) = Some GeneratingVariation
  /\ step (ContentSettled 0 Rejected) (Scenario.after 8) = Some s
  /\ latest s
     = Some (mkMessage 8 bot
               (InnerHTML (Text text_variation_error))
               [])
  /\ chat_offers "satisfaction-buttons" s = false
  /\ isLoading s = true
  /\ promptInput_disabled s = true
  /\ sendButton_disabled s = true
  /\ phase_of s = None
  /\ (forall text, step (Input text) s = None)
  /\ step SubmitForm s = Some s.
Proof.
  cbv zeta. conjuncts; vm_compute; reflexivity.
Qed.

(** What is left to the user there: the vary buttons of the grid, which
    re-enable the input. *)
Example grid_still_reenables_input :
  option_map isLoading
    (step (Click (VaryButton 0)) (Scenario.after_variation Rejected))
  = Some false.
Proof. vm_compute. reflexivity. Qed.

(** The two scenarios of the specification, on the model: four images and
    the phase Idle after the batch; the picked image and the phase
    AwaitingVariationFeedback after the click on vary; the new image and the
    phase AwaitingSatisfaction after the variation. *)
Example happy_path :
  lastGeneratedImages (Scenario.after 5) = ["img0"; "img1"; "img2"; "img3"]
  /\ phase_of (Scenario.after 5) = Some Idle
  /\ isLoading (Scenario.after 5) = false.
Proof. conjuncts; vm_compute; reflexivity. Qed.

Example variation_round_trip :
  phase_of (Scenario.after 6) = Some AwaitingVariationFeedback
  /\ lastGeneratedImage (Scenario.after 6) = Some "img2"
  /\ phase_of (Scenario.after 8) = Some GeneratingVariation
  /\ inflight (Scenario.after 8) = [AwaitVariation 7 "img2" "make the jersey red"]
  /\ let s := Scenario.after_variation (Resolved (Some [Some [InlineDataPart "img4"]])) in
     phase_of s = Some AwaitingSatisfaction
     /\ lastGeneratedImage s = Some "img4".
Proof. cbv zeta. conjuncts; vm_compute; reflexivity. Qed.

(** ** The two image variables *)

Lemma scenario_reachable (n : nat) :
  n <= 8 -> reachable (Scenario.after n).
Proof.
  intros H. exists (firstn n Scenario.events).
  do 9 (destruct n as [|n]; [vm_compute; reflexivity|]). lia.
Qed.

Lemma plainly_reachable_reachable (s : State) :
  plainly_reachable s -> reachable s.
Proof.
  intros (trace & _ & H). exists trace. exact H.
Qed.

Lemma scenario_plainly_reachable (n : nat) :
  n <= 8 -> plainly_reachable (Scenario.after n).
Proof.
  intros H. exists (firstn n Scenario.events).
  do 9 (destruct n as [|n]; [split; vm_compute; reflexivity|]). lia.
Qed.

(** C2, as the specification has it, fails after a click on a vary button:
    the picked image is in [lastGeneratedImage] and the four images are still
    in [lastGeneratedImages]. *)
Lemma picked_image_coexists_with_the_batch :
  reachable (Scenario.after 6)
  /\ lastGeneratedImages (Scenario.after 6) = ["img0"; "img1"; "img2"; "img3"]
  /\ lastGeneratedImage (Scenario.after 6) = Some "img2"
  /\ ~ mutually_exclusive (Scenario.after 6).
Proof.
  split; [apply scenario_reachable; lia|].
  split; [vm_compute; reflexivity|]. split; [vm_compute; reflexivity|].
  intros [H | H]; vm_compute in H; discriminate H.
Qed.

Lemma variation_resume_keeps_the_batch
    (s : State) (loaderMessage : nat) (feedbackPrompt : string)
    (o : Settled (option (list Candidate))) :
  lastGeneratedImages (generateImageVariation_resume loaderMessage feedbackPrompt o s)
  = lastGeneratedImages s.
Proof.
  destruct o as [|candidates]; [reflexivity|].
  rewrite variation_resume_cases.
  destruct (first_candidate_parts candidates) as [parts|]; [|reflexivity].
  destruct (variation_parts_loop feedbackPrompt parts (removeChild loaderMessage s) false)
    as (_ & _ & _ & _ & _ & _ & _ & H & _).
  cbv zeta in *. destruct (snd _); simpl; exact H.
Qed.

Lemma image_at_In (images : list string) (i : Z) (image : string) :
  image_at images i = Some image -> In image images.
Proof.
  unfold image_at. destruct (i <? 0)%Z; [discriminate|].
  apply nth_error_In.
Qed.

(** C2, as the code has it.  The two variables are not exclusive; they are
    set apart and reset together.  A click on the vary button of an image
    that is there puts that image in [lastGeneratedImage] and leaves
    [lastGeneratedImages] as it is, so that the picked image is one of the
    batch; a settled variation call leaves [lastGeneratedImages] as it is too.
    However the image call settles, its continuation leaves
    [lastGeneratedImage] null; a click on satisfied or on retry empties
    both. *)
Theorem image_variables_coexist_and_reset_together (s : State) :
  (forall (i : Z) (image : string),
      image_at (lastGeneratedImages s) i = Some image ->
      JsString.truthy image = true ->
      let s' := onClick (VaryButton i) s in
      lastGeneratedImage s' = Some image
      /\ lastGeneratedImages s' = lastGeneratedImages s
      /\ In image (lastGeneratedImages s'))
  /\ (forall loaderMessage feedbackPrompt o,
         lastGeneratedImages
           (generateImageVariation_resume loaderMessage feedbackPrompt o s)
         = lastGeneratedImages s)
  /\ (forall loaderMessage o,
         lastGeneratedImage (generateImage_resume loaderMessage o s) = None)
  /\ (forall message choice label,
         choice = "satisfied" \/ choice = "retry" ->
         let s' := onClick (ButtonOf message
                              (mkButton "satisfaction-button" choice label)) s in
         lastGeneratedImage s' = None /\ lastGeneratedImages s' = []).
Proof.
  conjuncts.
  - intros i image Hat Htruthy. unfold onClick. rewrite Hat, Htruthy. simpl.
    conjuncts; try reflexivity. now apply image_at_In with i.
  - intros. apply variation_resume_keeps_the_batch.
  - intros loaderMessage [|images]; [reflexivity|].
    unfold generateImage_resume. simpl.
    destruct (0 <? length images)%nat; reflexivity.
  - intros message choice label [-> | ->]; simpl; split; reflexivity.
Qed.

Lemma image_variables_coexist_and_reset_together_witness :
  let s := Scenario.after 5 in
  lastGeneratedImage s = None
  /\ let s' := onClick (VaryButton 2) s in
     lastGeneratedImage s' = Some "img2"
     /\ lastGeneratedImages s' = ["img0"; "img1"; "img2"; "img3"].
Proof.
  cbv zeta. split; [vm_compute; reflexivity|].
  destruct (image_variables_coexist_and_reset_together (Scenario.after 5))
    as (Hvary & _).
  destruct (Hvary 2%Z "img2" eq_refl eq_refl) as (H1 & H2 & _).
  split; [exact H1|]. rewrite H2. reflexivity.
Defined.

(** ** The fuel of the JSON parser *)

Lemma skipWs_length (s : string) :
  String.length (Json.skipWs s) <= String.length s.
Proof.
  induction s as [|c r IH]; simpl; [lia|].
  destruct (Json.isWs c); simpl; lia.
Qed.

Lemma skipWs_cons (s : string) (c : ascii) (r : string) :
  Json.skipWs s = String c r -> String.length r < String.length s.
Proof.
  intros H. pose proof (skipWs_length s) as L. rewrite H in L. simpl in L. lia.
Qed.

Lemma stripPrefix_length (p s r : string) :
  JsString.stripPrefix p s = Some r ->
  String.length s = String.length p + String.length r.
Proof.
  revert s. induction p as [|a p IH]; intros s H; simpl in H.
  - now injection H as ->.
  - destruct s as [|b s]; [discriminate|].
    destruct (Ascii.eqb a b); [|discriminate].
    apply IH in H. simpl. lia.
Qed.

Lemma push_some (u : N) (x : option (list N * string)) (us : list N) (r : string) :
  Json.push u x = Some (us, r) -> exists us', x = Some (us', r).
Proof.
  destruct x as [[us' r']|]; simpl; [|discriminate].
  intros [= _ ->]. now exists us'.
Qed.

Lemma stringBody_length (s : string) :
  forall m us r,
    Json.stringBody m s = Some (us, r) -> String.length r < String.length s.
Proof.
  induction s as [|c s IH]; intros m us r H; simpl in H; [discriminate|].
  assert (Hpush : forall u m', Json.push u (Json.stringBody m' s) = Some (us, r) ->
                               String.length r < S (String.length s)).
  { intros u m' Hp. apply push_some in Hp as [us' Hp]. apply IH in Hp. lia. }
  assert (Hrec : forall m', Json.stringBody m' s = Some (us, r) ->
                            String.length r < S (String.length s)).
  { intros m' Hp. apply IH in Hp. lia. }
  simpl. destruct m as [| |[|k] v].
  - repeat match type of H with
           | context [if ?b then _ else _] => destruct b
           end; eauto; try discriminate.
    injection H as _ <-. lia.
  - repeat match type of H with
           | context [if ?b then _ else _] => destruct b
           end; eauto; discriminate.
  - discriminate.
  - destruct (Json.hexValue c); [|discriminate]. destruct k; eauto.
Qed.

Lemma digits_length (s : string) :
  forall d r, Json.digits s = (d, r) ->
              String.length s = String.length d + String.length r.
Proof.
  induction s as [|c s IH]; intros d r H; simpl in H.
  - injection H as <- <-. reflexivity.
  - destruct (Json.isDigit c).
    + destruct (Json.digits s) as [d' r'] eqn:E. injection H as <- <-.
      specialize (IH _ _ eq_refl). simpl. lia.
    + injection H as <- <-. reflexivity.
Qed.

Lemma minus_length (s sign r : string) :
  Json.minus s = (sign, r) -> String.length r <= String.length s.
Proof.
  unfold Json.minus. destruct s as [|c s]; [intros [= _ <-]; lia|].
  destruct (_ =? _)%nat; intros [= _ <-]; simpl; lia.
Qed.

Lemma integer_length (s int r : string) :
  Json.integer s = Some (int, r) -> String.length r < String.length s.
Proof.
  unfold Json.integer. destruct (Json.digits s) as [d r'] eqn:E.
  apply digits_length in E.
  destruct d as [|c [|c' d]]; [discriminate| |].
  - intros [= _ <-]. simpl in E. lia.
  - destruct (_ =? _)%nat; [discriminate|]. intros [= _ <-]. simpl in E. lia.
Qed.

Lemma fraction_length (s f r : string) :
  Json.fraction s = Some (f, r) -> String.length r <= String.length s.
Proof.
  unfold Json.fraction. destruct s as [|c s]; [intros [= _ <-]; lia|].
  destruct (_ =? _)%nat.
  - destruct (Json.digits s) as [d r'] eqn:E. apply digits_length in E.
    destruct d; [discriminate|]. intros [= _ <-]. simpl in *. lia.
  - intros [= _ <-]. lia.
Qed.

Lemma exponent_length (s e r : string) :
  Json.exponent s = Some (e, r) -> String.length r <= String.length s.
Proof.
  unfold Json.exponent. destruct s as [|c s]; [intros [= _ <-]; lia|].
  destruct (_ || _).
  - destruct (match s with String _ _ => _ | EmptyString => _ end) as [sign r1] eqn:E.
    assert (L : String.length r1 <= String.length s).
    { destruct s as [|c' s']; [injection E as _ <-; lia|].
      destruct (_ || _) in E; injection E as _ <-; simpl; lia. }
    destruct (Json.digits r1) as [d r'] eqn:D. apply digits_length in D.
    destruct d; [discriminate|]. intros [= _ <-]. simpl. lia.
  - intros [= _ <-]. lia.
Qed.

Lemma number_length (s lexeme r : string) :
  Json.number s = Some (lexeme, r) -> String.length r < String.length s.
Proof.
  unfold Json.number.
  destruct (Json.minus s) as [sign s1] eqn:E1. apply minus_length in E1.
  destruct (Json.integer s1) as [[int s2]|] eqn:E2; [|discriminate].
  apply integer_length in E2.
  destruct (Json.fraction s2) as [[f s3]|] eqn:E3; [|discriminate].
  apply fraction_length in E3.
  destruct (Json.exponent s3) as [[e s4]|] eqn:E4; [|discriminate].
  apply exponent_length in E4.
  intros [= _ <-]. lia.
Qed.

Ltac break_hyp H :=
  repeat match type of H with
         | context [match ?x with _ => _ end] => destruct x eqn:?
         end.

Ltac break_goal :=
  repeat match goal with
         | |- context [match ?x with _ => _ end] => destruct x eqn:?
         end.

Ltac lengths :=
  repeat match goal with
         | H : Json.skipWs _ = String _ _ |- _ => apply skipWs_cons in H
         | H : Json.stringBody _ _ = Some _ |- _ => apply stringBody_length in H
         | H : JsString.stripPrefix _ _ = Some _ |- _ => apply stripPrefix_length in H
         | H : Json.number _ = Some _ |- _ => apply number_length in H
         end;
  cbn [String.length] in *.

(** Every parsing function that succeeds has consumed something. *)
Lemma parsers_consume (fuel : nat) :
  (forall s v r, Json.value fuel s = Json.Ok v r -> String.length r < String.length s)
  /\ (forall s l r, Json.elements fuel s = Json.Ok l r -> String.length r < String.length s)
  /\ (forall s l r, Json.members fuel s = Json.Ok l r -> String.length r < String.length s).
Proof.
  induction fuel as [|f (IHv & IHe & IHm)].
  - conjuncts; intros; discriminate.
  - conjuncts.
    + intros s v r H. cbn [Json.value Json.elements Json.members] in H; break_hyp H; try discriminate;
        injection H as _ <-;
        repeat match goal with
               | E : Json.elements f _ = Json.Ok _ _ |- _ => apply IHe in E
               | E : Json.members f _ = Json.Ok _ _ |- _ => apply IHm in E
               end;
        lengths; lia.
    + intros s l r H. cbn [Json.value Json.elements Json.members] in H; break_hyp H; try discriminate;
        injection H as _ <-;
        repeat match goal with
               | E : Json.value f _ = Json.Ok _ _ |- _ => apply IHv in E
               | E : Json.elements f _ = Json.Ok _ _ |- _ => apply IHe in E
               end;
        lengths; lia.
    + intros s l r H. cbn [Json.value Json.elements Json.members] in H; break_hyp H; try discriminate;
        injection H as _ <-;
        repeat match goal with
               | E : Json.value f _ = Json.Ok _ _ |- _ => apply IHv in E
               | E : Json.members f _ = Json.Ok _ _ |- _ => apply IHm in E
               end;
        lengths; lia.
Qed.

(** With fuel above twice the length of the text no parsing function runs
    out of it. *)
Lemma parsers_fuel (fuel : nat) :
  (forall s, 2 * String.length s + 1 <= fuel -> Json.value fuel s <> Json.OutOfFuel)
  /\ (forall s, 2 * String.length s + 2 <= fuel -> Json.elements fuel s <> Json.OutOfFuel)
  /\ (forall s, 2 * String.length s + 1 <= fuel -> Json.members fuel s <> Json.OutOfFuel).
Proof.
  induction fuel as [|f (IHv & IHe & IHm)].
  - conjuncts; intros; lia.
  - destruct (parsers_consume f) as (Cv & Ce & Cm).
    conjuncts; intros s Hfuel; cbn [Json.value Json.elements Json.members];
      break_goal; try discriminate;
      repeat match goal with
             | E : Json.value f _ = Json.Ok _ _ |- _ => apply Cv in E
             | E : Json.elements f _ = Json.Ok _ _ |- _ => apply Ce in E
             | E : Json.members f _ = Json.Ok _ _ |- _ => apply Cm in E
             end;
      lengths;
      match goal with
      | E : Json.value f _ = Json.OutOfFuel |- _ => exfalso; revert E; apply IHv; cbn [String.length]; lia
      | E : Json.elements f _ = Json.OutOfFuel |- _ => exfalso; revert E; apply IHe; cbn [String.length]; lia
      | E : Json.members f _ = Json.OutOfFuel |- _ => exfalso; revert E; apply IHm; cbn [String.length]; lia
      end.
Qed.

(** [Json.parse] never gives up for lack of fuel: its [None] is a syntax
    error, or text left after the value. *)
Lemma Json_fuel_suffices (text : string) :
  Json.value (Json.fuel_for text) text <> Json.OutOfFuel.
Proof.
  apply (parsers_fuel (Json.fuel_for text)). unfold Json.fuel_for. lia.
Qed.

(** ** The persona reply *)

Lemma append_assoc (a b c : string) :
  ((a ++ b) ++ c = a ++ (b ++ c))%string.
Proof.
  induction a as [|x a IH]; simpl; [reflexivity|]. now rewrite IH.
Qed.

Lemma length_append (a b : string) :
  String.length (a ++ b)%string = String.length a + String.length b.
Proof.
  induction a as [|x a IH]; simpl; [reflexivity|]. now rewrite IH.
Qed.

Lemma trimStart_append_blank (pre x : string) :
  JsString.allWhiteSpace pre = true ->
  JsString.trimStart (pre ++ x)%string = JsString.trimStart x.
Proof.
  induction pre as [|c r IH]; simpl; [reflexivity|].
  intros H. apply andb_true_iff in H as [Hc Hr]. rewrite Hc. now apply IH.
Qed.

Lemma trimEnd_blank (post : string) :
  JsString.allWhiteSpace post = true -> JsString.trimEnd post = "".
Proof.
  induction post as [|c r IH]; simpl; [reflexivity|].
  intros H. apply andb_true_iff in H as [Hc Hr]. now rewrite (IH Hr), Hc.
Qed.

Lemma trimEnd_append_blank (x post : string) :
  JsString.allWhiteSpace post = true ->
  JsString.trimEnd (x ++ post)%string = JsString.trimEnd x.
Proof.
  intros H. induction x as [|c r IH]; simpl.
  - now apply trimEnd_blank.
  - now rewrite IH.
Qed.

Lemma trimEnd_append_kept (y z : string) :
  JsString.trimEnd z = z -> z <> "" ->
  JsString.trimEnd (y ++ z)%string = (y ++ z)%string.
Proof.
  intros Hz Hne. induction y as [|c r IH]; simpl; [exact Hz|].
  rewrite IH. destruct (r ++ z)%string eqn:E; [|reflexivity].
  destruct r; simpl in E; [contradiction | discriminate].
Qed.

Lemma stripSuffix_self (p : string) : JsString.stripSuffix p p = Some "".
Proof.
  destruct p; simpl; [reflexivity|].
  now rewrite Ascii.eqb_refl, String.eqb_refl.
Qed.

Lemma stripSuffix_append (p b : string) :
  JsString.stripSuffix p (b ++ p)%string = Some b.
Proof.
  induction b as [|c r IH]; [apply stripSuffix_self|].
  change (String c r ++ p)%string with (String c (r ++ p)%string).
  cbn [JsString.stripSuffix]. rewrite IH.
  destruct (String.eqb p (String c (r ++ p))) eqn:E; [|reflexivity].
  apply String.eqb_eq in E. apply (f_equal String.length) in E.
  simpl in E. rewrite length_append in E. lia.
Qed.

(** A fenced reply: white space around it goes, then the opening fence with
    its optional newline, then the closing fence. *)
Lemma stripFences_fenced (pre body post : string) :
  JsString.allWhiteSpace pre = true ->
  JsString.allWhiteSpace post = true ->
  stripFences (pre ++ "```json" ++ body ++ "```" ++ post)%string
  = after_optional_newline body.
Proof.
  intros Hpre Hpost. unfold stripFences, JsString.trim.
  rewrite trimStart_append_blank by exact Hpre.
  change (JsString.trimStart ("```json" ++ body ++ "```" ++ post)%string)
    with ("```json" ++ body ++ "```" ++ post)%string.
  replace ("```json" ++ body ++ "```" ++ post)%string
    with ((("```json" ++ body) ++ "```") ++ post)%string
    by (now rewrite !append_assoc).
  rewrite trimEnd_append_blank by exact Hpost.
  rewrite trimEnd_append_kept by (reflexivity || discriminate).
  rewrite append_assoc.
  change (JsString.stripPrefix "```json" ("```json" ++ body ++ "```")%string)
    with (Some (body ++ "```")%string).
  destruct body as [|c r].
  - reflexivity.
  - change (String c r ++ "```")%string with (String c (r ++ "```")%string).
    unfold after_optional_newline.
    destruct (Ascii.eqb c LF).
    + now rewrite stripSuffix_append.
    + change (String c (r ++ "```")%string) with (String c r ++ "```")%string.
      now rewrite stripSuffix_append.
Qed.

(** C7, as the specification has it, fails on a reply that is JSON of
    another shape: an object without the two fields, or a number, is returned
    to the caller as if it were a [PersonaResponse]. *)
Lemma reply_of_another_shape_is_returned :
  getPersonaResponse (Resolved (Some "{}")) = Resolved (JObject [])
  /\ is_PersonaResponse (JObject []) = false
  /\ getPersonaResponse (Resolved (Some "42")) = Resolved (JNumber "42")
  /\ is_PersonaResponse (JNumber "42") = false.
Proof.
  conjuncts; vm_compute; reflexivity.
Qed.

(** A fence that does not say [json] is not taken off the front. *)
Example bare_fence_is_not_stripped :
  getPersonaResponse (Resolved (Some ("```" ++ newline ++ "42" ++ newline ++ "```")%string))
  = Rejected.
Proof. vm_compute. reflexivity. Qed.

(** C7, as the code has it.  [getPersonaResponse] throws its error when the
    remote call is rejected, when the response has no text, and when the
    text, trimmed and without its fences, is not JSON; any text that is JSON
    resolves to the parsed value as it is, whatever its fields.  The fences
    that go are an opening [```json] with an optional newline and a closing
    [```], inside any white space; a text without them is only trimmed.  (The
    last line is about the model: its parser never stops for lack of fuel,
    so that a rejected text is a text [JSON.parse] rejects.) *)
Theorem persona_reply_is_parsed_unchecked :
  getPersonaResponse Rejected = Rejected
  /\ getPersonaResponse (Resolved None) = Rejected
  /\ (forall text,
         Json.parse (stripFences text) = None ->
         getPersonaResponse (Resolved (Some text)) = Rejected)
  /\ (forall text v,
         Json.parse (stripFences text) = Some v ->
         getPersonaResponse (Resolved (Some text)) = Resolved v)
  /\ (forall pre body post,
         JsString.allWhiteSpace pre = true ->
         JsString.allWhiteSpace post = true ->
         stripFences (pre ++ "```json" ++ body ++ "```" ++ post)%string
         = after_optional_newline body)
  /\ (forall text,
         JsString.stripPrefix "```json" (JsString.trim text) = None ->
         JsString.stripSuffix "```" (JsString.trim text) = None ->
         stripFences text = JsString.trim text)
  /\ (forall text,
         Json.value (Json.fuel_for (stripFences text)) (stripFences text)
         <> Json.OutOfFuel).
Proof.
  conjuncts.
  - reflexivity.
  - reflexivity.
  - intros text H. unfold getPersonaResponse. rewrite H. reflexivity.
  - intros text v H. unfold getPersonaResponse. rewrite H. reflexivity.
  - apply stripFences_fenced.
  - intros text H1 H2. unfold stripFences. rewrite H1, H2. reflexivity.
  - intros text. apply Json_fuel_suffices.
Qed.

Lemma persona_reply_is_parsed_unchecked_witness :
  getPersonaResponse
    (Resolved (Some ("  ```json" ++ newline ++ "[true]" ++ newline ++ "```" ++ newline)%string))
  = Resolved (JArray [JBool true]).
Proof.
  destruct persona_reply_is_parsed_unchecked as (_ & _ & _ & Hparsed & Hfenced & _ & _).
  apply Hparsed.
  change ("  ```json" ++ newline ++ "[true]" ++ newline ++ "```" ++ newline)%string
    with ("  " ++ "```json" ++ (newline ++ "[true]" ++ newline) ++ "```" ++ newline)%string.
  rewrite Hfenced by reflexivity.
  vm_compute. reflexivity.
Defined.

(** ** Every state of the page *)

Ltac fields :=
  cbn [setLoading set_loading_fields addMessage_ addMessage removeChild
       appendChild removeButtonContainer set_chat set_lastUserPrompt
       set_lastGeneratedImage set_lastGeneratedImages set_isVariationRequest
       set_promptInput_value set_viewer set_inflight set_timers
       closeFullscreenViewer
       isLoading lastUserPrompt lastGeneratedImage lastGeneratedImages
       isVariationRequest promptInput_value promptInput_disabled
       sendButton_disabled chatContainer next_node fullscreenImage_src
       fullscreenViewer_visible inflight timers fst snd] in *.

Ltac consistency :=
  unfold consistent in *; fields;
  repeat match goal with
         | H : _ /\ _ |- _ => destruct H
         end;
  conjuncts; try reflexivity; try assumption; try discriminate; try congruence;
  try (intros; discriminate); auto.

Lemma onSubmit_consistent (s : State) : consistent s -> consistent (onSubmit s).
Proof.
  intros H. unfold onSubmit.
  destruct (isLoading s) eqn:Hbusy; [exact H|].
  destruct (JsString.truthy _); [|exact H].
  cbn [isVariationRequest set_promptInput_value addMessage_ addMessage fst set_chat].
  destruct (isVariationRequest s) eqn:Hflag.
  - unfold generateImageVariation. fields.
    destruct (lastGeneratedImage s) as [base|];
      [destruct (JsString.truthy base)|]; consistency.
  - unfold handleUserPrompt. consistency.
Qed.

Lemma onClick_consistent (t : Target) (s : State) :
  consistent s -> consistent (onClick t s).
Proof.
  intros H. destruct t as [src | message b | index |]; unfold onClick.
  - consistency.
  - destruct (String.eqb (btn_class b) "style-button").
    + destruct (JsString.truthy (btn_data b) && _);
        [unfold generateImage|]; consistency.
    + destruct (String.eqb (btn_class b) "satisfaction-button"); [|exact H].
      destruct (String.eqb (btn_data b) "satisfied"); [consistency|].
      destruct (String.eqb (btn_data b) "retry"); [consistency|].
      destruct (String.eqb (btn_data b) "variations"); consistency.
  - destruct (image_at _ _) as [image|]; [|exact H].
    destruct (JsString.truthy image); [|exact H]. consistency.
  - exact H.
Qed.

Lemma generateImageVariation_resume_consistent
    (s : State) (loaderMessage : nat) (feedbackPrompt : string)
    (o : Settled (option (list Candidate))) :
  consistent s ->
  consistent (generateImageVariation_resume loaderMessage feedbackPrompt o s).
Proof.
  intros H. destruct o as [|candidates]; [unfold generateImageVariation_resume; consistency|].
  rewrite variation_resume_cases.
  destruct (first_candidate_parts candidates) as [parts|]; [|consistency].
  destruct (variation_parts_loop feedbackPrompt parts (removeChild loaderMessage s) false)
    as (_ & _ & _ & _ & H5 & H6 & H7 & _ & H9 & _).
  cbv zeta in *.
  assert (Hloop : consistent (fst (fold_left (variation_part feedbackPrompt) parts
                                             (removeChild loaderMessage s, false)))).
  { unfold consistent. rewrite H5, H6, H7, H9. consistency. }
  destruct (snd _); consistency.
Qed.

Lemma step_consistent (e : Event) (s s' : State) :
  consistent s -> step e s = Some s' -> consistent s'.
Proof.
  intros H Hstep. destruct e; unfold step in Hstep.
  - destruct (timers s); [discriminate|]. injection Hstep as <-. consistency.
  - destruct (promptInput_disabled s); [discriminate|].
    injection Hstep as <-. consistency.
  - injection Hstep as <-. now apply onSubmit_consistent.
  - destruct (target_present t s); [|discriminate].
    injection Hstep as <-. now apply onClick_consistent.
  - injection Hstep as <-. consistency.
  - destruct (nth_error (inflight s) k) as [[]|]; try discriminate.
    injection Hstep as <-. unfold handleUserPrompt_resume.
    destruct o as [|r]; [|destruct (isValidRequest r)]; consistency.
  - destruct (nth_error (inflight s) k) as [[]|]; try discriminate.
    injection Hstep as <-. unfold generateImage_resume.
    destruct o as [|images]; [consistency|]. fields.
    destruct (0 <? length images)%nat; consistency.
  - destruct (nth_error (inflight s) k) as [[]|]; try discriminate.
    injection Hstep as <-.
    apply generateImageVariation_resume_consistent. consistency.
Qed.

Lemma run_consistent (trace : list Event) :
  forall s s', consistent s -> run trace s = Some s' -> consistent s'.
Proof.
  induction trace as [|e rest IH]; intros s s' H Hrun; simpl in Hrun.
  - now injection Hrun as <-.
  - destruct (step e s) as [s1|] eqn:E; [|discriminate].
    eapply IH; [|exact Hrun]. eapply step_consistent; eauto.
Qed.

(** In every state the page can reach the input is disabled exactly while
    [isLoading], and [isLoading] excludes a pending feedback: [phase_of] gives
    up on no reachable state for that reason. *)
Lemma reachable_consistent (s : State) : reachable s -> consistent s.
Proof.
  intros [trace Hrun]. eapply run_consistent; [|exact Hrun].
  unfold consistent, initial. cbn. conjuncts; try reflexivity; discriminate.
Qed.

(** X1.  In every state the page can reach, the prompt input and the send
    button are disabled exactly while [isLoading] is true, and no variation
    feedback is pending while [isLoading] is true. *)
Theorem input_disabled_exactly_while_loading (s : State) :
  reachable s ->
  promptInput_disabled s = isLoading s
  /\ sendButton_disabled s = isLoading s
  /\ (isLoading s = true -> isVariationRequest s = false).
Proof.
  intros H. exact (reachable_consistent s H).
Qed.

Lemma input_disabled_exactly_while_loading_witness :
  promptInput_disabled (Scenario.after 8) = isLoading (Scenario.after 8)
  /\ isLoading (Scenario.after 8) = true.
Proof.
  destruct (input_disabled_exactly_while_loading (Scenario.after 8)) as (H & _).
  - apply scenario_reachable. lia.
  - split; [exact H | vm_compute; reflexivity].
Defined.

(** ** Accepted submissions *)

Lemma truthy_trim (v : string) :
  JsString.allWhiteSpace v = false -> JsString.truthy (JsString.trim v) = true.
Proof.
  intros H. destruct (JsString.truthy (JsString.trim v)) eqn:E; [reflexivity|].
  apply trim_empty_iff in E. congruence.
Qed.

(** X2.  A submission with some text that is not white space, made while
    the page is neither loading nor waiting for feedback, is a new prompt: the
    trimmed text is shown as one user bubble and stored in [lastUserPrompt],
    the input is emptied and disabled, and exactly one call is issued, the
    persona call on the trimmed text.  The images of an earlier batch are
    kept.  With no other call outstanding the session is in
    AwaitingPersonaReply. *)
Theorem new_prompt_is_sent_to_the_persona (s : State) :
  isLoading s = false ->
  isVariationRequest s = false ->
  JsString.allWhiteSpace (promptInput_value s) = false ->
  let prompt := JsString.trim (promptInput_value s) in
  let s' := onSubmit s in
  chatContainer s'
  = chatContainer s ++ [mkMessage (next_node s) user (InnerHTML (Text prompt)) []]
  /\ promptInput_value s' = ""
  /\ lastUserPrompt s' = prompt
  /\ inflight s' = inflight s ++ [AwaitPersona prompt]
  /\ isLoading s' = true
  /\ promptInput_disabled s' = true
  /\ sendButton_disabled s' = true
  /\ lastGeneratedImage s' = lastGeneratedImage s
  /\ lastGeneratedImages s' = lastGeneratedImages s
  /\ (inflight s = [] -> phase_of s' = Some AwaitingPersonaReply).
Proof.
  intros Hidle Hflag Htext prompt s'. subst s' prompt.
  unfold onSubmit. rewrite Hidle, (truthy_trim _ Htext). fields. rewrite Hflag.
  unfold handleUserPrompt. fields. conjuncts; try reflexivity.
  intros Hnone. unfold phase_of. fields. rewrite Hflag, Hnone. reflexivity.
Qed.

Lemma new_prompt_is_sent_to_the_persona_witness :
  let s := set_promptInput_value "  a tennis serve " initial in
  inflight (onSubmit s) = [AwaitPersona "a tennis serve"]
  /\ lastUserPrompt (onSubmit s) = "a tennis serve".
Proof.
  destruct (new_prompt_is_sent_to_the_persona
              (set_promptInput_value "  a tennis serve " initial)
              eq_refl eq_refl eq_refl)
    as (_ & _ & Hprompt & Hcall & _).
  cbv zeta. split; [exact Hcall | exact Hprompt].
Defined.

(** X3.  A submission made while feedback is pending and an image is
    selected is a variation request: the flag is reset, the trimmed text is
    shown as a user bubble followed by a loader bubble, the input is
    disabled, and exactly one call is issued, the variation call on the
    selected image and the trimmed text.  [lastUserPrompt] is not touched. *)
Theorem feedback_is_sent_with_the_selected_image (s : State) (base : string) :
  isLoading s = false ->
  isVariationRequest s = true ->
  lastGeneratedImage s = Some base ->
  JsString.truthy base = true ->
  JsString.allWhiteSpace (promptInput_value s) = false ->
  let feedback := JsString.trim (promptInput_value s) in
  let s' := onSubmit s in
  chatContainer s'
  = chatContainer s
    ++ [mkMessage (next_node s) user (InnerHTML (Text feedback)) [];
        mkMessage (S (next_node s)) bot LoaderDots []]
  /\ inflight s' = inflight s ++ [AwaitVariation (S (next_node s)) base feedback]
  /\ isVariationRequest s' = false
  /\ isLoading s' = true
  /\ promptInput_disabled s' = true
  /\ promptInput_value s' = ""
  /\ lastUserPrompt s' = lastUserPrompt s
  /\ lastGeneratedImage s' = Some base
  /\ (inflight s = [] -> phase_of s' = Some GeneratingVariation).
Proof.
  intros Hidle Hflag Himage Hbase Htext feedback s'. subst s' feedback.
  unfold onSubmit. rewrite Hidle, (truthy_trim _ Htext). fields. rewrite Hflag.
  unfold generateImageVariation. fields. rewrite Himage, Hbase. fields.
  rewrite <- app_assoc. conjuncts; try reflexivity.
  - exact Himage.
  - intros Hnone. unfold phase_of. fields. rewrite Hnone. reflexivity.
Qed.

Lemma feedback_is_sent_with_the_selected_image_witness :
  let s := set_promptInput_value "make the jersey red" (Scenario.after 6) in
  inflight (onSubmit s) = [AwaitVariation 7 "img2" "make the jersey red"]
  /\ phase_of (onSubmit s) = Some GeneratingVariation.
Proof.
  destruct (feedback_is_sent_with_the_selected_image
              (set_promptInput_value "make the jersey red" (Scenario.after 6)) "img2"
              eq_refl eq_refl eq_refl eq_refl eq_refl)
    as (_ & Hcall & _ & _ & _ & _ & _ & _ & Hphase).
  cbv zeta. split; [exact Hcall | exact (Hphase eq_refl)].
Defined.

(** X4.  A submission made while feedback is pending but no image is
    selected ([lastGeneratedImage] null or the empty string) issues no call:
    the flag is reset, the user bubble and the apology are added, and the
    input stays enabled.  With no call outstanding the session is in Idle. *)
Theorem feedback_without_an_image_issues_no_call (s : State) :
  isLoading s = false ->
  isVariationRequest s = true ->
  image_truthy (lastGeneratedImage s) = false ->
  JsString.allWhiteSpace (promptInput_value s) = false ->
  let feedback := JsString.trim (promptInput_value s) in
  let s' := onSubmit s in
  chatContainer s'
  = chatContainer s
    ++ [mkMessage (next_node s) user (InnerHTML (Text feedback)) [];
        mkMessage (S (next_node s)) bot (InnerHTML (Text text_no_last_image)) []]
  /\ inflight s' = inflight s
  /\ isVariationRequest s' = false
  /\ isLoading s' = false
  /\ promptInput_disabled s' = false
  /\ sendButton_disabled s' = false
  /\ lastGeneratedImage s' = lastGeneratedImage s
  /\ (inflight s = [] -> phase_of s' = Some Idle).
Proof.
  intros Hidle Hflag Himage Htext feedback s'. subst s' feedback.
  unfold onSubmit. rewrite Hidle, (truthy_trim _ Htext). fields. rewrite Hflag.
  unfold generateImageVariation. fields.
  assert (Hphase : forall s0, isLoading s0 = false -> isVariationRequest s0 = false ->
                              inflight s0 = [] -> phase_of s0 = Some Idle).
  { intros s0 H1 H2 H3. unfold phase_of. now rewrite H1, H2, H3. }
  destruct (lastGeneratedImage s) as [base|] eqn:E.
  - simpl in Himage. rewrite Himage. fields. rewrite <- app_assoc.
    conjuncts; try reflexivity; try exact E.
    intros Hnone. apply Hphase; fields; auto.
  - fields. rewrite <- app_assoc. conjuncts; try reflexivity; try exact E.
    intros Hnone. apply Hphase; fields; auto.
Qed.

Lemma feedback_without_an_image_issues_no_call_witness :
  let s := set_promptInput_value "brighter" (set_isVariationRequest true initial) in
  inflight (onSubmit s) = [] /\ isLoading (onSubmit s) = false.
Proof.
  destruct (feedback_without_an_image_issues_no_call
              (set_promptInput_value "brighter" (set_isVariationRequest true initial))
              eq_refl eq_refl eq_refl eq_refl)
    as (_ & Hcall & _ & Hload & _).
  cbv zeta. split; [exact Hcall | exact Hload].
Defined.

(** ** The shape of the chat *)

Lemma nth_error_split_remove {A : Type} (l : list A) :
  forall k p, nth_error l k = Some p ->
              exists pre post, l = pre ++ p :: post /\ remove_nth k l = pre ++ post.
Proof.
  induction l as [|a l IH]; intros [|k] p H; simpl in H; try discriminate.
  - injection H as ->. now exists [], l.
  - destruct (IH k p H) as (pre & post & -> & E).
    exists (a :: pre), post. simpl. now rewrite E.
Qed.

Lemma loaders_app (a b : list Pending) : loaders (a ++ b) = loaders a ++ loaders b.
Proof. unfold loaders. apply flat_map_app. Qed.

Lemma loaders_one (p : Pending) :
  loaders [p] = match loader_of p with Some l => [l] | None => [] end.
Proof. unfold loaders. simpl. apply app_nil_r. Qed.

Lemma loaders_split (pre post : list Pending) (p : Pending) :
  loaders (pre ++ p :: post)
  = loaders pre ++ match loader_of p with Some l => [l] | None => [] end ++ loaders post.
Proof.
  change (p :: post) with ([p] ++ post). now rewrite !loaders_app, loaders_one.
Qed.

Lemma filter_filter_comm {A : Type} (f g : A -> bool) (l : list A) :
  filter f (filter g l) = filter g (filter f l).
Proof.
  induction l as [|a l IH]; simpl; [reflexivity|].
  destruct (g a) eqn:G, (f a) eqn:F; simpl; rewrite ?G, ?F, IH; reflexivity.
Qed.

Lemma map_node_filter (L : nat) (l : list Message) :
  map msg_node (filter (fun m => negb (Nat.eqb (msg_node m) L)) l)
  = filter (fun x => negb (Nat.eqb x L)) (map msg_node l).
Proof.
  induction l as [|a l IH]; simpl; [reflexivity|].
  destruct (Nat.eqb (msg_node a) L); simpl; now rewrite IH.
Qed.

Lemma filter_absent (L : nat) (l : list nat) :
  ~ In L l -> filter (fun x => negb (Nat.eqb x L)) l = l.
Proof.
  induction l as [|a l IH]; simpl; [reflexivity|].
  intros H. destruct (Nat.eqb a L) eqn:E.
  - apply Nat.eqb_eq in E. tauto.
  - simpl. rewrite IH; tauto.
Qed.

Lemma filter_only_occurrence (L : nat) (a b : list nat) :
  NoDup (a ++ L :: b) ->
  filter (fun x => negb (Nat.eqb x L)) (a ++ L :: b) = a ++ b.
Proof.
  intros H. apply NoDup_remove_2 in H.
  rewrite filter_app. simpl. rewrite Nat.eqb_refl. simpl.
  rewrite !filter_absent; [reflexivity| |]; intros Hin; apply H, in_or_app; tauto.
Qed.

Lemma in_map_node (m : Message) (l : list Message) :
  In m l -> In (msg_node m) (map msg_node l).
Proof. apply in_map. Qed.

(** A new bubble that is not a loader. *)
Lemma tidy_bubble (chat : list Message) (next : nat) (calls : list Pending)
    (m0 : Message) :
  tidy chat next calls ->
  msg_node m0 = next -> is_loader m0 = false -> plain_children m0 ->
  tidy (chat ++ [m0]) (S next) calls.
Proof.
  intros (Hlt & Hnd & Hpl & Hld) Hnode Hno Hplain. unfold tidy. conjuncts.
  - intros m Hin. apply in_app_or in Hin as [Hin | [<- | []]].
    + specialize (Hlt m Hin). lia.
    + lia.
  - rewrite map_app. simpl. apply NoDup_app.
    + exact Hnd.
    + constructor; [intros [] | constructor].
    + intros x Hx [<- | []]. apply in_map_iff in Hx as (m & Hm & Hin).
      specialize (Hlt m Hin). lia.
  - intros m Hin. apply in_app_or in Hin as [Hin | [<- | []]]; auto.
  - rewrite filter_app. simpl. rewrite Hno, app_nil_r. exact Hld.
Qed.

Lemma messageElement_plain (node : nat) (text : Html) (sender : Sender) (o : Options) :
  o = no_options \/ o = satisfaction_option \/ o = style_option \/ o = loading_option ->
  plain_children (messageElement node text sender o).
Proof.
  unfold plain_children. intros [-> | [-> | [-> | ->]]]; simpl; auto.
Qed.

Lemma tidy_message (chat : list Message) (next : nat) (calls : list Pending)
    (text : Html) (sender : Sender) (o : Options) :
  tidy chat next calls ->
  o = no_options \/ o = satisfaction_option \/ o = style_option ->
  tidy (chat ++ [messageElement next text sender o]) (S next) calls.
Proof.
  intros H Ho. apply tidy_bubble; auto.
  - destruct Ho as [-> | [-> | ->]]; reflexivity.
  - apply messageElement_plain. tauto.
Qed.

(** A loader bubble, with the call that will remove it. *)
Lemma tidy_loader (chat : list Message) (next : nat) (calls : list Pending)
    (text : Html) (sender : Sender) (p : Pending) :
  tidy chat next calls ->
  loader_of p = Some next ->
  tidy (chat ++ [messageElement next text sender loading_option]) (S next) (calls ++ [p]).
Proof.
  intros (Hlt & Hnd & Hpl & Hld) Hp. unfold tidy. conjuncts.
  - intros m Hin. apply in_app_or in Hin as [Hin | [<- | []]].
    + specialize (Hlt m Hin). lia.
    + simpl. lia.
  - rewrite map_app. simpl. apply NoDup_app.
    + exact Hnd.
    + constructor; [intros [] | constructor].
    + intros x Hx [<- | []]. apply in_map_iff in Hx as (m & Hm & Hin).
      specialize (Hlt m Hin). lia.
  - intros m Hin. apply in_app_or in Hin as [Hin | [<- | []]]; auto.
    apply messageElement_plain. tauto.
  - rewrite loaders_app, loaders_one, Hp, filter_app, map_app, Hld. reflexivity.
Qed.

(** A call without a loader. *)
Lemma tidy_call (chat : list Message) (next : nat) (calls : list Pending) (p : Pending) :
  tidy chat next calls -> loader_of p = None -> tidy chat next (calls ++ [p]).
Proof.
  intros (Hlt & Hnd & Hpl & Hld) Hp. unfold tidy. conjuncts; auto.
  rewrite loaders_app, loaders_one, Hp, Hld. apply app_nil_r.
Qed.

(** A call settles and its loader is removed. *)
Lemma tidy_settle (chat : list Message) (next : nat) (calls : list Pending)
    (k : nat) (p : Pending) (L : nat) :
  tidy chat next calls ->
  nth_error calls k = Some p -> loader_of p = Some L ->
  tidy (filter (fun m => negb (Nat.eqb (msg_node m) L)) chat) next (remove_nth k calls).
Proof.
  intros (Hlt & Hnd & Hpl & Hld) Hk Hp. unfold tidy. conjuncts.
  - intros m Hin. apply filter_In in Hin as [Hin _]. auto.
  - rewrite map_node_filter. now apply NoDup_filter.
  - intros m Hin. apply filter_In in Hin as [Hin _]. auto.
  - rewrite filter_filter_comm, map_node_filter, <- Hld.
    destruct (nth_error_split_remove calls k p Hk) as (pre & post & -> & ->).
    rewrite loaders_split, Hp, loaders_app. simpl.
    symmetry. apply filter_only_occurrence.
    assert (E : loaders pre ++ L :: loaders post = loaders (pre ++ p :: post)).
    { now rewrite loaders_split, Hp. }
    rewrite E, Hld.
    clear -Hnd. induction chat as [|a chat IH]; simpl; [constructor|].
    simpl in Hnd. apply NoDup_cons_iff in Hnd as [Hnot Hnd].
    destruct (is_loader a); [|now apply IH].
    simpl. constructor; [|now apply IH].
    intros Hin. apply Hnot. apply in_map_iff in Hin as (m & <- & Hm).
    apply filter_In in Hm as [Hm _]. now apply in_map.
Qed.

(** A call without a loader settles. *)
Lemma tidy_settle_plain (chat : list Message) (next : nat) (calls : list Pending)
    (k : nat) (p : Pending) :
  tidy chat next calls ->
  nth_error calls k = Some p -> loader_of p = None ->
  tidy chat next (remove_nth k calls).
Proof.
  intros (Hlt & Hnd & Hpl & Hld) Hk Hp. unfold tidy. conjuncts; auto.
  destruct (nth_error_split_remove calls k p Hk) as (pre & post & -> & ->).
  rewrite <- Hld. now rewrite loaders_split, Hp, loaders_app.
Qed.

(** Something is changed below the text of some bubbles. *)
Lemma tidy_map (chat : list Message) (next : nat) (calls : list Pending)
    (f : Message -> Message) :
  tidy chat next calls ->
  (forall m, In m chat ->
             msg_node (f m) = msg_node m /\ msg_inner (f m) = msg_inner m
             /\ plain_children (f m)) ->
  tidy (map f chat) next calls.
Proof.
  intros (Hlt & Hnd & Hpl & Hld) Hf.
  assert (Hnodes : map msg_node (map f chat) = map msg_node chat).
  { rewrite map_map. apply map_ext_in. intros m Hin. now apply Hf. }
  unfold tidy. conjuncts.
  - intros m Hin. apply in_map_iff in Hin as (m0 & <- & Hin).
    destruct (Hf m0 Hin) as (-> & _). auto.
  - now rewrite Hnodes.
  - intros m Hin. apply in_map_iff in Hin as (m0 & <- & Hin). now apply Hf.
  - rewrite Hld. clear -Hf. induction chat as [|a chat IH]; [reflexivity|].
    destruct (Hf a (or_introl eq_refl)) as (Hn & Hi & _).
    assert (Hl : is_loader (f a) = is_loader a) by (unfold is_loader; now rewrite Hi).
    assert (Hrest : map msg_node (filter is_loader chat)
                    = map msg_node (filter is_loader (map f chat))).
    { apply IH. intros m Hin. apply Hf. now right. }
    cbn [map filter]. rewrite Hl. destruct (is_loader a); cbn [map];
      now rewrite ?Hn, Hrest.
Qed.

(** [appendChild] on the bubble just added reaches that bubble only. *)
Lemma appendChild_reaches_the_new_bubble (chat : list Message) (next : nat)
    (m0 : Message) (child : Child) :
  (forall m, In m chat -> msg_node m < next) ->
  msg_node m0 = next ->
  map (fun m => if Nat.eqb (msg_node m) next
                then mkMessage (msg_node m) (msg_sender m) (msg_inner m)
                               (msg_children m ++ [child])
                else m) (chat ++ [m0])
  = chat ++ [mkMessage next (msg_sender m0) (msg_inner m0) (msg_children m0 ++ [child])].
Proof.
  intros Hlt Hnode. rewrite map_app. simpl. rewrite Hnode, Nat.eqb_refl. f_equal.
  rewrite <- (map_id chat) at 2. apply map_ext_in. intros m Hin.
  specialize (Hlt m Hin). destruct (Nat.eqb_spec (msg_node m) next); [lia | reflexivity].
Qed.

Lemma tidy_grid (chat : list Message) (next : nat) (calls : list Pending)
    (items : list GridItem) :
  tidy chat next calls ->
  tidy (map (fun m => if Nat.eqb (msg_node m) next
                      then mkMessage (msg_node m) (msg_sender m) (msg_inner m)
                                     (msg_children m ++ [ImageGridContainer items])
                      else m)
            (chat ++ [messageElement next (Text "") bot no_options]))
       (S next) calls.
Proof.
  intros H. rewrite appendChild_reaches_the_new_bubble; [|apply H | reflexivity].
  apply tidy_bubble; try reflexivity; [exact H|].
  unfold plain_children. simpl. eauto.
Qed.

Lemma remove_first_plain (b : Button) (m : Message) :
  plain_children m ->
  plain_children (mkMessage (msg_node m) (msg_sender m) (msg_inner m)
                            (remove_first (holds_button b) (msg_children m))).
Proof.
  unfold plain_children. cbn [msg_children].
  intros [-> | [-> | [-> | [items ->]]]]; cbn [remove_first]; auto.
  - destruct (holds_button b style_buttons_container); auto.
  - destruct (holds_button b satisfaction_buttons_container); auto.
  - cbn [holds_button]. eauto.
Qed.

Lemma tidy_remove_container (chat : list Message) (next : nat) (calls : list Pending)
    (message : nat) (b : Button) :
  tidy chat next calls ->
  tidy (map (fun m => if Nat.eqb (msg_node m) message
                      then mkMessage (msg_node m) (msg_sender m) (msg_inner m)
                                     (remove_first (holds_button b) (msg_children m))
                      else m) chat)
       next calls.
Proof.
  intros H. apply tidy_map; [exact H|].
  intros m Hin. destruct (Nat.eqb (msg_node m) message); simpl.
  - conjuncts; try reflexivity. apply remove_first_plain. now apply H.
  - conjuncts; try reflexivity. now apply H.
Qed.

Lemma tidy_images (feedbackPrompt : string) (images : list string) :
  forall (chat : list Message) (next : nat) (calls : list Pending),
    tidy chat next calls ->
    tidy (chat ++ imageBubbles next feedbackPrompt images) (next + length images) calls.
Proof.
  induction images as [|image rest IH]; intros chat next calls H; simpl.
  - now rewrite app_nil_r, Nat.add_0_r.
  - change (mkMessage next bot (InnerHTML (ImageContainerHTML image feedbackPrompt)) []
            :: imageBubbles (S next) feedbackPrompt rest)
      with ([mkMessage next bot (InnerHTML (ImageContainerHTML image feedbackPrompt)) []]
            ++ imageBubbles (S next) feedbackPrompt rest).
    rewrite app_assoc, Nat.add_succ_r. apply (IH _ (S next)).
    apply tidy_bubble; try reflexivity; [exact H|]. unfold plain_children. simpl. auto.
Qed.

Ltac tidy_up :=
  repeat first
    [ assumption
    | apply tidy_loader; [|reflexivity]
    | apply tidy_call; [|reflexivity]
    | apply tidy_message; [|solve [auto]]
    | apply tidy_grid
    | apply tidy_remove_container ].

Lemma onSubmit_wellformed (s : State) : wellformed s -> wellformed (onSubmit s).
Proof.
  unfold wellformed. intros H. unfold onSubmit.
  destruct (isLoading s); [exact H|].
  destruct (JsString.truthy _); [|exact H].
  fields. destruct (isVariationRequest s).
  - unfold generateImageVariation. fields.
    destruct (lastGeneratedImage s) as [base|];
      [destruct (JsString.truthy base)|]; fields; tidy_up.
  - unfold handleUserPrompt. fields. tidy_up.
Qed.

Lemma onClick_wellformed (t : Target) (s : State) :
  wellformed s -> wellformed (onClick t s).
Proof.
  unfold wellformed. intros H.
  destruct t as [src | message b | index |]; unfold onClick.
  - exact H.
  - destruct (String.eqb (btn_class b) "style-button").
    + destruct (JsString.truthy (btn_data b) && _);
        [unfold generateImage|]; fields; tidy_up.
    + destruct (String.eqb (btn_class b) "satisfaction-button"); [|exact H].
      destruct (String.eqb (btn_data b) "satisfied"); [fields; tidy_up|].
      destruct (String.eqb (btn_data b) "retry"); [fields; tidy_up|].
      destruct (String.eqb (btn_data b) "variations"); fields; tidy_up.
  - destruct (image_at _ _) as [image|]; [|exact H].
    destruct (JsString.truthy image); [|exact H]. fields. tidy_up.
  - exact H.
Qed.

Lemma step_wellformed (e : Event) (s s' : State) :
  wellformed s -> step e s = Some s' -> wellformed s'.
Proof.
  intros H Hstep. destruct e; unfold step in Hstep.
  - destruct (timers s); [discriminate|]. injection Hstep as <-.
    unfold wellformed in *. fields. tidy_up.
  - destruct (promptInput_disabled s); [discriminate|].
    injection Hstep as <-. exact H.
  - injection Hstep as <-. now apply onSubmit_wellformed.
  - destruct (target_present t s); [|discriminate].
    injection Hstep as <-. now apply onClick_wellformed.
  - injection Hstep as <-. exact H.
  - destruct (nth_error (inflight s) k) as [p|] eqn:Hk; [|discriminate].
    destruct p; try discriminate. injection Hstep as <-.
    assert (H0 : tidy (chatContainer s) (next_node s) (remove_nth k (inflight s))).
    { eapply tidy_settle_plain; [exact H | exact Hk | reflexivity]. }
    unfold wellformed, handleUserPrompt_resume.
    destruct o as [|r]; [|destruct (isValidRequest r)]; fields; tidy_up.
  - destruct (nth_error (inflight s) k) as [p|] eqn:Hk; [|discriminate].
    destruct p; try discriminate. injection Hstep as <-.
    assert (H0 : tidy (filter (fun m => negb (Nat.eqb (msg_node m) loaderMessage))
                              (chatContainer s))
                      (next_node s) (remove_nth k (inflight s))).
    { eapply tidy_settle; [exact H | exact Hk | reflexivity]. }
    unfold wellformed, generateImage_resume.
    destruct o as [|images]; [fields; tidy_up|]. fields.
    destruct (0 <? length images)%nat; fields; tidy_up.
  - destruct (nth_error (inflight s) k) as [p|] eqn:Hk; [|discriminate].
    destruct p; try discriminate. injection Hstep as <-.
    assert (H0 : tidy (filter (fun m => negb (Nat.eqb (msg_node m) loaderMessage))
                              (chatContainer s))
                      (next_node s) (remove_nth k (inflight s))).
    { eapply tidy_settle; [exact H | exact Hk | reflexivity]. }
    unfold wellformed.
    destruct o as [|candidates]; [unfold generateImageVariation_resume; fields; tidy_up|].
    rewrite variation_resume_cases.
    destruct (first_candidate_parts candidates) as [parts|]; [|fields; tidy_up].
    set (s0 := removeChild loaderMessage (set_inflight (remove_nth k (inflight s)) s)).
    assert (Hloop :
      let r := fold_left (variation_part feedbackPrompt) parts (s0, false) in
      tidy (chatContainer (fst r)) (next_node (fst r)) (inflight (fst r))).
    { destruct (variation_parts_loop feedbackPrompt parts s0 false)
        as (_ & _ & H3 & H4 & _ & _ & _ & _ & _ & H10).
      cbv zeta. rewrite H3, H4, H10. apply tidy_images. exact H0. }
    cbv zeta in *.
    destruct (fold_left _ parts _) as [s2 found]. cbn [fst snd] in *.
    destruct found; fields; tidy_up.
Qed.

Lemma run_wellformed (trace : list Event) :
  forall s s', wellformed s -> run trace s = Some s' -> wellformed s'.
Proof.
  induction trace as [|e rest IH]; intros s s' H Hrun; simpl in Hrun.
  - now injection Hrun as <-.
  - destruct (step e s) as [s1|] eqn:E; [|discriminate].
    eapply IH; [|exact Hrun]. eapply step_wellformed; eauto.
Qed.

Lemma reachable_wellformed (s : State) : reachable s -> wellformed s.
Proof.
  intros [trace Hrun]. eapply run_wellformed; [|exact Hrun].
  unfold wellformed, tidy, initial. cbn. conjuncts; try reflexivity.
  - intros m [].
  - constructor.
  - intros m [].
Qed.

(** X5.  In every state the page can reach, the loader bubbles in the chat
    are exactly the loaders of the outstanding image and variation calls, in
    the order of the calls; so when no call is outstanding no loader bubble
    is left in the chat. *)
Theorem loader_bubbles_are_the_outstanding_calls (s : State) :
  reachable s ->
  loaders (inflight s) = map msg_node (filter is_loader (chatContainer s))
  /\ (inflight s = [] ->
      forall m, In m (chatContainer s) -> is_loader m = false).
Proof.
  intros H. apply reachable_wellformed in H as (_ & _ & _ & Hld).
  split; [exact Hld|].
  intros Hnone m Hin. rewrite Hnone in Hld. simpl in Hld.
  destruct (is_loader m) eqn:E; [|reflexivity].
  assert (Hm : In m (filter is_loader (chatContainer s))) by (apply filter_In; auto).
  destruct (filter is_loader (chatContainer s)); [destruct Hm | discriminate].
Qed.

Lemma loader_bubbles_are_the_outstanding_calls_witness :
  loaders (inflight (Scenario.after 8)) = [7]
  /\ map msg_node (filter is_loader (chatContainer (Scenario.after 8))) = [7]
  /\ forall m, In m (chatContainer (Scenario.after 5)) -> is_loader m = false.
Proof.
  destruct (loader_bubbles_are_the_outstanding_calls (Scenario.after 8)) as (H8 & _).
  { apply scenario_reachable. lia. }
  destruct (loader_bubbles_are_the_outstanding_calls (Scenario.after 5)) as (_ & H5).
  { apply scenario_reachable. lia. }
  split; [vm_compute; reflexivity|].
  split; [rewrite <- H8; vm_compute; reflexivity|].
  apply H5. vm_compute. reflexivity.
Defined.

Lemma filter_keeps_other_nodes (L : nat) (l : list Message) :
  ~ In L (map msg_node l) ->
  filter (fun m => negb (Nat.eqb (msg_node m) L)) l = l.
Proof.
  induction l as [|a l IH]; simpl; [reflexivity|].
  intros H. destruct (Nat.eqb_spec (msg_node a) L) as [E | E]; [tauto|].
  simpl. rewrite IH; tauto.
Qed.

(** X6.  When an image or variation call of a reachable state settles,
    [removeChild] takes exactly one bubble out of the chat, the loader bubble
    of that call; the bubbles before and after it stay, in their order. *)
Theorem settling_removes_exactly_the_loader
    (s : State) (k : nat) (p : Pending) (L : nat) :
  reachable s ->
  nth_error (inflight s) k = Some p ->
  loader_of p = Some L ->
  exists before m after,
    chatContainer s = before ++ m :: after
    /\ msg_node m = L
    /\ msg_inner m = LoaderDots
    /\ chatContainer (removeChild L s) = before ++ after.
Proof.
  intros H Hk Hp. apply reachable_wellformed in H as (_ & Hnd & _ & Hld).
  assert (HL : In L (loaders (inflight s))).
  { destruct (nth_error_split_remove _ _ _ Hk) as (pre & post & -> & _).
    rewrite loaders_split, Hp. apply in_or_app. right. now left. }
  rewrite Hld in HL. apply in_map_iff in HL as (m & Hnode & Hm).
  apply filter_In in Hm as [Hin Hloader].
  apply in_split in Hin as (before & after & Hchat).
  exists before, m, after. conjuncts; auto.
  - unfold is_loader in Hloader. destruct (msg_inner m); [reflexivity | discriminate].
  - unfold removeChild. fields. rewrite Hchat in *.
    rewrite map_app in Hnd. simpl in Hnd. rewrite Hnode in Hnd.
    apply NoDup_remove_2 in Hnd.
    rewrite filter_app. simpl. rewrite Hnode, Nat.eqb_refl. simpl.
    rewrite !filter_keeps_other_nodes; [reflexivity| |];
      intros Hin; apply Hnd, in_or_app; tauto.
Qed.

Lemma settling_removes_exactly_the_loader_witness :
  exists before m after,
    chatContainer (Scenario.after 8) = before ++ m :: after
    /\ msg_node m = 7
    /\ chatContainer (removeChild 7 (Scenario.after 8)) = before ++ after.
Proof.
  destruct (settling_removes_exactly_the_loader (Scenario.after 8) 0
              (AwaitVariation 7 "img2" "make the jersey red") 7)
    as (before & m & after & H1 & H2 & _ & H4).
  - apply scenario_reachable. lia.
  - vm_compute. reflexivity.
  - reflexivity.
  - exists before, m, after. auto.
Defined.

(** ** The grid *)

Lemma combine_seq_nth (l : list string) :
  forall (a i : nat) (x : string),
    In (i, x) (combine (seq a (length l)) l) ->
    a <= i /\ nth_error l (i - a) = Some x.
Proof.
  induction l as [|y l IH]; intros a i x H; simpl in H; [destruct H|].
  destruct H as [[= <- <-] | H].
  - rewrite Nat.sub_diag. split; [lia | reflexivity].
  - apply IH in H as [Hle Hnth]. split; [lia|].
    replace (i - a) with (S (i - S a)) by lia. exact Hnth.
Qed.

Lemma gridItems_cell (images : list string) (prompt : string) (cell : GridItem) :
  In cell (gridItems images prompt) ->
  nth_error images (item_index cell) = Some (item_base64 cell)
  /\ item_prompt cell = prompt.
Proof.
  unfold gridItems. intros H. apply in_map_iff in H as ([i x] & <- & Hin).
  apply combine_seq_nth in Hin as [_ Hnth]. rewrite Nat.sub_0_r in Hnth.
  simpl. now split.
Qed.

Lemma combine_seq_columns (l : list string) :
  forall a, map snd (combine (seq a (length l)) l) = l
            /\ map fst (combine (seq a (length l)) l) = seq a (length l).
Proof.
  induction l as [|y l IH]; intros a; simpl; [now split|].
  destruct (IH (S a)) as [-> ->]. now split.
Qed.

Lemma gridItems_columns (images : list string) (prompt : string) :
  map item_base64 (gridItems images prompt) = images
  /\ map item_index (gridItems images prompt) = seq 0 (length images).
Proof.
  unfold gridItems. rewrite !map_map. cbn [item_base64 item_index].
  destruct (combine_seq_columns images 0) as [H1 H2]. now split.
Qed.

Lemma image_at_of_nat (images : list string) (i : nat) :
  image_at images (Z.of_nat i) = nth_error images i.
Proof.
  unfold image_at. destruct (Z.of_nat i <? 0)%Z eqn:E.
  - apply Z.ltb_lt in E. lia.
  - now rewrite Nat2Z.id.
Qed.

(** X7.  The wand of a grid cell selects the image that cell shows: for a
    grid built from the current [lastGeneratedImages], a click on the vary
    button of a cell puts the image of that cell in [lastGeneratedImage],
    sets the feedback flag, re-enables the input and adds the one bubble that
    asks what to change; the batch is kept.  If the image of the cell is the
    empty string the click does nothing. *)
Theorem wand_selects_the_image_of_its_cell
    (s : State) (prompt : string) (cell : GridItem) :
  In cell (gridItems (lastGeneratedImages s) prompt) ->
  let s' := onClick (VaryButton (Z.of_nat (item_index cell))) s in
  (JsString.truthy (item_base64 cell) = true ->
   lastGeneratedImage s' = Some (item_base64 cell)
   /\ isVariationRequest s' = true
   /\ isLoading s' = false
   /\ promptInput_disabled s' = false
   /\ sendButton_disabled s' = false
   /\ lastGeneratedImages s' = lastGeneratedImages s
   /\ chatContainer s'
      = chatContainer s
        ++ [mkMessage (next_node s) bot (InnerHTML (Text text_what_to_change)) []]
   /\ inflight s' = inflight s
   /\ (inflight s = [] -> phase_of s' = Some AwaitingVariationFeedback))
  /\ (JsString.truthy (item_base64 cell) = false -> s' = s).
Proof.
  intros Hcell s'. subst s'. apply gridItems_cell in Hcell as [Hnth _].
  unfold onClick. rewrite image_at_of_nat, Hnth. split; intros Htruthy; rewrite Htruthy.
  - fields. conjuncts; try reflexivity.
    intros Hnone. rewrite phase_when_input_enabled; fields; auto.
  - reflexivity.
Qed.

Lemma wand_selects_the_image_of_its_cell_witness :
  lastGeneratedImage
    (onClick (VaryButton 2) (Scenario.after 5)) = Some "img2"
  /\ phase_of (onClick (VaryButton 2) (Scenario.after 5))
     = Some AwaitingVariationFeedback.
Proof.
  destruct (wand_selects_the_image_of_its_cell (Scenario.after 5)
              "a soccer player scoring a goal"
              (mkGridItem "img2" 2 "a soccer player scoring a goal"))
    as (H & _).
  - vm_compute. tauto.
  - destruct (H eq_refl) as (H1 & _ & _ & _ & _ & _ & _ & _ & H9).
    split; [exact H1 | exact (H9 eq_refl)].
Defined.

(** X8.  A batch with at least one image, settling in a reachable state,
    when neither the stored prompt nor the image data carry markup (they are
    written into the [innerHTML] of the cells as they are): the loader bubble
    goes, the images are stored in [lastGeneratedImages] in
    the order received and [lastGeneratedImage] is null; one grid bubble is
    added, with one cell per image, cell [i] showing image [i] with the
    current [lastUserPrompt] in its [alt] text, followed by the guidance
    bubble; the input is re-enabled; the wand of every cell is in the
    document.  Coming from GeneratingBatch the session is in Idle. *)
Theorem batch_is_shown_as_a_grid
    (s : State) (k loaderMessage : nat) (prompt : string) (images : list string) :
  reachable s ->
  nth_error (inflight s) k = Some (AwaitImages loaderMessage prompt) ->
  images <> [] ->
  markup_free (lastUserPrompt s) = true ->
  forallb markup_free images = true ->
  exists s',
    step (ImagesSettled k (Resolved images)) s = Some s'
    /\ lastGeneratedImages s' = images
    /\ lastGeneratedImage s' = None
    /\ chatContainer s'
       = chatContainer (removeChild loaderMessage s)
         ++ [mkMessage (next_node s) bot (InnerHTML (Text ""))
               [ImageGridContainer (gridItems images (lastUserPrompt s))];
             mkMessage (S (next_node s)) bot (InnerHTML (Text text_options)) []]
    /\ map item_base64 (gridItems images (lastUserPrompt s)) = images
    /\ map item_index (gridItems images (lastUserPrompt s)) = seq 0 (length images)
    /\ isLoading s' = false
    /\ promptInput_disabled s' = false
    /\ sendButton_disabled s' = false
    /\ (forall i, i < length images ->
        target_present (VaryButton (Z.of_nat i)) s' = true)
    /\ (phase_of s = Some GeneratingBatch -> phase_of s' = Some Idle).
Proof.
  intros Hreach Hk Hsome _ _.
  apply reachable_wellformed in Hreach as (Hlt & _).
  eexists. split.
  { unfold step. rewrite Hk. reflexivity. }
  unfold generateImage_resume. fields.
  assert (Hlen : (0 <? length images)%nat = true).
  { destruct images; [contradiction | reflexivity]. }
  rewrite Hlen. fields.
  assert (Hchat :
    map (fun m => if Nat.eqb (msg_node m) (next_node s)
                  then mkMessage (msg_node m) (msg_sender m) (msg_inner m)
                         (msg_children m
                          ++ [ImageGridContainer (gridItems images (lastUserPrompt s))])
                  else m)
        (filter (fun m => negb (Nat.eqb (msg_node m) loaderMessage)) (chatContainer s)
         ++ [messageElement (next_node s) (Text "") bot no_options])
    = filter (fun m => negb (Nat.eqb (msg_node m) loaderMessage)) (chatContainer s)
      ++ [mkMessage (next_node s) bot (InnerHTML (Text ""))
            [ImageGridContainer (gridItems images (lastUserPrompt s))]]).
  { apply appendChild_reaches_the_new_bubble; [|reflexivity].
    intros m Hin. apply filter_In in Hin as [Hin _]. auto. }
  rewrite Hchat. destruct (gridItems_columns images (lastUserPrompt s)) as [Hc1 Hc2].
  conjuncts; try reflexivity; try assumption.
  - rewrite <- app_assoc. reflexivity.
  - intros i Hi. unfold target_present. fields.
    rewrite !existsb_app. cbn [existsb has_vary_button msg_children].
    assert (Hin : In i (map item_index (gridItems images (lastUserPrompt s)))).
    { rewrite Hc2. apply in_seq. lia. }
    apply in_map_iff in Hin as (cell & Hidx & Hcell).
    assert (E : existsb (fun c : GridItem => (Z.of_nat i =? Z.of_nat (item_index c))%Z)
                        (gridItems images (lastUserPrompt s)) = true).
    { apply existsb_exists. exists cell. split; [exact Hcell|].
      rewrite Hidx. apply Z.eqb_refl. }
    rewrite E. cbn. now rewrite orb_true_r.
  - intros Hp. apply phase_GeneratingBatch in Hp as (_ & Hflag & l & q & Hin).
    rewrite Hin in Hk. apply nth_error_singleton in Hk as [-> _].
    rewrite phase_when_input_enabled; fields; [now rewrite Hflag | reflexivity |].
    now rewrite Hin.
Qed.

Lemma batch_is_shown_as_a_grid_witness :
  exists s',
    step (ImagesSettled 0 (Resolved ["a"; "b"])) (Scenario.after 4) = Some s'
    /\ lastGeneratedImages s' = ["a"; "b"]
    /\ phase_of s' = Some Idle.
Proof.
  destruct (batch_is_shown_as_a_grid (Scenario.after 4) 0 2
              (fullPrompt "a soccer player scoring a goal" "cartoon") ["a"; "b"])
    as (s' & H1 & H2 & _ & _ & _ & _ & _ & _ & _ & _ & H11).
  - apply scenario_reachable. lia.
  - vm_compute. reflexivity.
  - discriminate.
  - vm_compute. reflexivity.
  - vm_compute. reflexivity.
  - exists s'. split; [exact H1|]. split; [exact H2|].
    apply H11. vm_compute. reflexivity.
Defined.

(** ** The other outcomes of the three calls *)



(** X10.  When the image call is rejected, the continuation of
    [generateImage] removes the loader, empties [lastGeneratedImages] and
    [lastGeneratedImage], adds the error bubble and re-enables the input.
    Coming from GeneratingBatch the session is in Idle. *)
Theorem failed_batch_clears_the_images_and_reenables_input
    (s : State) (k loaderMessage : nat) (prompt : string) :
  nth_error (inflight s) k = Some (AwaitImages loaderMessage prompt) ->
  exists s',
    step (ImagesSettled k Rejected) s = Some s'
    /\ lastGeneratedImages s' = []
    /\ lastGeneratedImage s' = None
    /\ chatContainer s'
       = chatContainer (removeChild loaderMessage s)
         ++ [mkMessage (next_node s) bot (InnerHTML (Text text_images_error)) []]
    /\ isLoading s' = false
    /\ promptInput_disabled s' = false
    /\ sendButton_disabled s' = false
    /\ (phase_of s = Some GeneratingBatch -> phase_of s' = Some Idle).
Proof.
  intros Hk. eexists. split.
  { unfold step. rewrite Hk. reflexivity. }
  unfold generateImage_resume. fields. conjuncts; try reflexivity.
  intros Hp. apply phase_GeneratingBatch in Hp as (_ & Hflag & l & q & Hin).
  rewrite Hin in Hk. apply nth_error_singleton in Hk as [-> _].
  rewrite phase_when_input_enabled; fields; [now rewrite Hflag | reflexivity |].
  now rewrite Hin.
Qed.

Lemma failed_batch_clears_the_images_and_reenables_input_witness :
  exists s',
    step (ImagesSettled 0 Rejected) (Scenario.after 4) = Some s'
    /\ isLoading s' = false
    /\ phase_of s' = Some Idle.
Proof.
  destruct (failed_batch_clears_the_images_and_reenables_input (Scenario.after 4) 0 2
              (fullPrompt "a soccer player scoring a goal" "cartoon"))
    as (s' & H1 & _ & _ & _ & H5 & _ & _ & H8).
  - vm_compute. reflexivity.
  - exists s'. split; [exact H1|]. split; [exact H5|].
    apply H8. vm_compute. reflexivity.
Defined.

(** The chat and the rest of the state after a resolved variation call
    whose first candidate gives the loop its parts. *)
Lemma variation_resume_resolved
    (s : State) (loaderMessage : nat) (feedbackPrompt : string)
    (candidates : option (list Candidate)) (parts : list Part) :
  first_candidate_parts candidates = Some parts ->
  let images := inline_images parts in
  let s' := generateImageVariation_resume loaderMessage feedbackPrompt
              (Resolved candidates) s in
  chatContainer s'
  = (chatContainer (removeChild loaderMessage s)
     ++ imageBubbles (next_node s) feedbackPrompt images)
    ++ closingBubbles (next_node s + length images) (0 <? length images)%nat
  /\ isLoading s' = isLoading s
  /\ promptInput_disabled s' = promptInput_disabled s
  /\ sendButton_disabled s' = sendButton_disabled s
  /\ isVariationRequest s' = isVariationRequest s
  /\ inflight s' = inflight s.
Proof.
  intros Hparts images s'. subst s'.
  rewrite variation_resume_cases, Hparts.
  destruct (variation_parts_loop feedbackPrompt parts (removeChild loaderMessage s) false)
    as (_ & H2 & H3 & H4 & H5 & H6 & H7 & _ & H9 & H10).
  cbv zeta in *. fold images in H2, H3, H4. rewrite H2. simpl orb.
  destruct (0 <? length images)%nat; fields; rewrite H3, H4, H5, H6, H7, H9, H10;
    fields; rewrite <- ?app_assoc; conjuncts; reflexivity.
Qed.

(** X11.  When a variation call resolves with a response that has no
    candidate, or whose first candidate carries parts (with images or
    without), the last bubble added carries the three satisfaction buttons,
    [isLoading] is left as it was and no call is issued; coming from
    GeneratingVariation the session is in AwaitingSatisfaction: the input
    stays disabled and the buttons are the way on.  When the first candidate
    has no parts to iterate over, the continuation only removes the loader:
    no bubble is added and [isLoading] is left as it was. *)
Theorem resolved_variation_offers_the_satisfaction_buttons
    (s : State) (k loaderMessage : nat) (base feedbackPrompt : string)
    (candidates : option (list Candidate)) :
  nth_error (inflight s) k = Some (AwaitVariation loaderMessage base feedbackPrompt) ->
  exists s',
    step (ContentSettled k (Resolved candidates)) s = Some s'
    /\ isLoading s' = isLoading s
    /\ inflight s' = remove_nth k (inflight s)
    /\ (forall parts, first_candidate_parts candidates = Some parts ->
        exists last_bubble,
          latest s' = Some last_bubble
          /\ msg_children last_bubble = [satisfaction_buttons_container]
          /\ map btn_data satisfaction_buttons = ["satisfied"; "variations"; "retry"]
          /\ (phase_of s = Some GeneratingVariation ->
              phase_of s' = Some AwaitingSatisfaction
              /\ button_present (msg_node last_bubble)
                   (mkButton "satisfaction-button" "satisfied" "I'm satisfied") s'
                 = true))
    /\ (first_candidate_parts candidates = None ->
        chatContainer s' = chatContainer (removeChild loaderMessage s)
        /\ lastGeneratedImage s' = lastGeneratedImage s
        /\ promptInput_disabled s' = promptInput_disabled s).
Proof.
  intros Hk.
  set (s0 := set_inflight (remove_nth k (inflight s)) s).
  set (s' := generateImageVariation_resume loaderMessage feedbackPrompt
               (Resolved candidates) s0).
  assert (Hsame : isLoading s' = isLoading s /\ inflight s' = remove_nth k (inflight s)).
  { unfold s'. rewrite variation_resume_cases.
    destruct (first_candidate_parts candidates) as [parts|] eqn:E; [|now split].
    destruct (variation_resume_resolved s0 loaderMessage feedbackPrompt candidates parts E)
      as (_ & Hload & _ & _ & _ & Hin).
    cbv zeta in Hload, Hin. rewrite variation_resume_cases, E in Hload, Hin.
    split; [exact Hload | exact Hin]. }
  destruct Hsame as [Hload Hin].
  exists s'. conjuncts.
  - unfold step. rewrite Hk. reflexivity.
  - exact Hload.
  - exact Hin.
  - intros parts Hparts.
    set (images := inline_images parts).
    destruct (variation_resume_resolved s0 loaderMessage feedbackPrompt candidates parts
                Hparts) as (Hchat & _ & _ & _ & Hflag & _).
    fold images in Hchat. fold s' in Hchat, Hflag.
    set (node := next_node s0 + length images) in *.
    set (bubble := mkMessage (if (0 <? length images)%nat then node else S node) bot
                     (InnerHTML (Text (if (0 <? length images)%nat
                                       then text_how_does_this_look
                                       else text_previous_image)))
                     [satisfaction_buttons_container]).
    assert (Hlast : exists c, chatContainer s' = c ++ [bubble]).
    { rewrite Hchat. unfold closingBubbles, bubble.
      destruct (0 <? length images)%nat.
      - eexists. reflexivity.
      - exists ((chatContainer (removeChild loaderMessage s0)
                 ++ imageBubbles (next_node s0) feedbackPrompt images)
                ++ [mkMessage node bot (InnerHTML (Text text_no_variation)) []]).
        rewrite <- !app_assoc. reflexivity. }
    destruct Hlast as [c Hlast].
    exists bubble. conjuncts; try reflexivity.
    + eapply latest_after_append. exact Hlast.
    + intros Hp.
      apply phase_GeneratingVariation in Hp as (Hbusy & Hnoflag & l & b0 & f & Hone).
      rewrite Hone in Hk. apply nth_error_singleton in Hk as [-> _].
      split.
      * unfold phase_of. rewrite Hload, Hflag, Hin. unfold s0. fields.
        rewrite Hbusy, Hnoflag, Hone. cbn [remove_nth].
        unfold latest_offers. erewrite latest_after_append by exact Hlast.
        reflexivity.
      * unfold button_present, target_present. rewrite Hlast, existsb_app.
        cbn [existsb]. replace (msg_node bubble =? msg_node bubble)%nat with true
          by (symmetry; apply Nat.eqb_refl).
        cbn. now rewrite orb_true_r.
  - intros Hnone. unfold s'. rewrite variation_resume_cases, Hnone.
    unfold s0. fields. conjuncts; reflexivity.
Qed.

Lemma resolved_variation_offers_the_satisfaction_buttons_witness :
  exists s',
    step (ContentSettled 0 (Resolved None)) (Scenario.after 8) = Some s'
    /\ phase_of s' = Some AwaitingSatisfaction.
Proof.
  destruct (resolved_variation_offers_the_satisfaction_buttons (Scenario.after 8) 0 7
              "img2" "make the jersey red" None)
    as (s' & H1 & _ & _ & H4 & _).
  - vm_compute. reflexivity.
  - exists s'. split; [exact H1|].
    destruct (H4 [] eq_refl) as (bubble & _ & _ & _ & H).
    apply H. vm_compute. reflexivity.
Defined.

(** ** The choice buttons *)

Lemma phase_AwaitingStyleChoice (s : State) :
  phase_of s = Some AwaitingStyleChoice ->
  isLoading s = true /\ isVariationRequest s = false /\ inflight s = []
  /\ latest_offers "style-buttons-container" s = true.
Proof.
  intros H. split_phase H. repeat split; eauto.
Qed.

(** X12.  A click on a style button takes the style buttons out of their
    bubble and, when a prompt is stored, adds a loader bubble and issues
    exactly one call: the image call whose prompt is built from
    [lastUserPrompt] and the style of the button.  [isLoading] is not
    touched (the listener never calls [setLoading] here) and neither are the
    images.  Coming from AwaitingStyleChoice the session is in
    GeneratingBatch.  With no prompt stored the click only removes the
    buttons. *)
Theorem style_choice_issues_the_image_call (s : State) (message : nat) (b : Button) :
  btn_class b = "style-button" ->
  JsString.truthy (btn_data b) = true ->
  let s' := onClick (ButtonOf message b) s in
  (JsString.truthy (lastUserPrompt s) = true ->
   inflight s'
   = inflight s ++ [AwaitImages (next_node s) (fullPrompt (lastUserPrompt s) (btn_data b))]
   /\ chatContainer s'
      = chatContainer (removeButtonContainer message b s)
        ++ [mkMessage (next_node s) bot LoaderDots []]
   /\ isLoading s' = isLoading s
   /\ promptInput_disabled s' = promptInput_disabled s
   /\ lastUserPrompt s' = lastUserPrompt s
   /\ lastGeneratedImage s' = lastGeneratedImage s
   /\ lastGeneratedImages s' = lastGeneratedImages s
   /\ (phase_of s = Some AwaitingStyleChoice -> phase_of s' = Some GeneratingBatch))
  /\ (lastUserPrompt s = "" -> s' = removeButtonContainer message b s).
Proof.
  intros Hclass Hstyle s'. subst s'. unfold onClick.
  rewrite Hclass, String.eqb_refl, Hstyle. fields. split.
  - intros Hprompt. rewrite Hprompt. cbn [andb]. unfold generateImage. fields.
    conjuncts; try reflexivity.
    intros Hp. apply phase_AwaitingStyleChoice in Hp as (Hbusy & Hflag & Hin & _).
    unfold phase_of. fields. rewrite Hbusy, Hflag, Hin. reflexivity.
  - intros Hnone. rewrite Hnone. reflexivity.
Qed.

Lemma style_choice_issues_the_image_call_witness :
  inflight (onClick (ButtonOf 1 Scenario.cartoon) (Scenario.after 3))
  = [AwaitImages 2 (fullPrompt "a soccer player scoring a goal" "cartoon")]
  /\ phase_of (onClick (ButtonOf 1 Scenario.cartoon) (Scenario.after 3))
     = Some GeneratingBatch.
Proof.
  destruct (style_choice_issues_the_image_call (Scenario.after 3) 1 Scenario.cartoon
              eq_refl eq_refl) as (H & _).
  destruct (H eq_refl) as (H1 & _ & _ & _ & _ & _ & _ & H8).
  split; [exact H1|]. apply H8. vm_compute. reflexivity.
Defined.

(** A feedback submission issues the variation call on the selected image. *)
Lemma feedback_call (s : State) (base : string) :
  isLoading s = false ->
  isVariationRequest s = true ->
  lastGeneratedImage s = Some base ->
  JsString.truthy base = true ->
  JsString.allWhiteSpace (promptInput_value s) = false ->
  inflight (onSubmit s)
  = inflight s
    ++ [AwaitVariation (S (next_node s)) base (JsString.trim (promptInput_value s))].
Proof.
  intros Hidle Hflag Himage Hbase Htext.
  unfold onSubmit. rewrite Hidle, (truthy_trim _ Htext). fields. rewrite Hflag.
  unfold generateImageVariation. fields. rewrite Himage, Hbase. fields. reflexivity.
Qed.

(** X13.  A click on the variations button keeps the images, sets the
    feedback flag, re-enables the input and asks what to change; the next
    feedback submitted is then sent with the current [lastGeneratedImage],
    that is, the latest variation when one was produced.  Coming from
    AwaitingSatisfaction the session is in AwaitingVariationFeedback. *)
Theorem more_variations_start_from_the_current_image
    (s : State) (message : nat) (label : string) :
  let s1 := onClick (ButtonOf message
                       (mkButton "satisfaction-button" "variations" label)) s in
  isVariationRequest s1 = true
  /\ isLoading s1 = false
  /\ promptInput_disabled s1 = false
  /\ sendButton_disabled s1 = false
  /\ lastGeneratedImage s1 = lastGeneratedImage s
  /\ lastGeneratedImages s1 = lastGeneratedImages s
  /\ chatContainer s1
     = chatContainer (removeButtonContainer message
                        (mkButton "satisfaction-button" "variations" label) s)
       ++ [mkMessage (next_node s) bot (InnerHTML (Text text_what_to_change)) []]
  /\ inflight s1 = inflight s
  /\ (phase_of s = Some AwaitingSatisfaction ->
      phase_of s1 = Some AwaitingVariationFeedback)
  /\ (forall base text,
         lastGeneratedImage s = Some base ->
         JsString.truthy base = true ->
         JsString.allWhiteSpace text = false ->
         inflight (onSubmit (set_promptInput_value text s1))
         = inflight s
           ++ [AwaitVariation (S (S (next_node s))) base (JsString.trim text)]).
Proof.
  intros s1.
  assert (E : s1 = setLoading false
                     (addMessage_ (Text text_what_to_change) bot no_options
                        (set_isVariationRequest true
                           (removeButtonContainer message
                              (mkButton "satisfaction-button" "variations" label) s))))
    by reflexivity.
  rewrite E. clear E s1. fields. conjuncts; try reflexivity.
  - intros Hp. apply phase_AwaitingSatisfaction in Hp as (_ & _ & Hin & _).
    unfold phase_of. fields. rewrite Hin. reflexivity.
  - intros base text Himage Hbase Htext.
    rewrite (feedback_call _ base); fields; auto.
Qed.

Lemma more_variations_start_from_the_current_image_witness :
  let s := Scenario.after_variation (Resolved (Some [Some [InlineDataPart "img4"]])) in
  let s1 := onClick (ButtonOf 9 (mkButton "satisfaction-button" "variations"
                                          "Generate variations")) s in
  phase_of s1 = Some AwaitingVariationFeedback
  /\ inflight (onSubmit (set_promptInput_value "add rain" s1))
     = [AwaitVariation 12 "img4" "add rain"].
Proof.
  destruct (more_variations_start_from_the_current_image
              (Scenario.after_variation (Resolved (Some [Some [InlineDataPart "img4"]])))
              9 "Generate variations")
    as (_ & _ & _ & _ & _ & _ & _ & _ & H9 & H10).
  cbv zeta. split.
  - apply H9. vm_compute. reflexivity.
  - apply (H10 "img4" "add rain"); vm_compute; reflexivity.
Defined.

Lemma NoDup_map_injective {A B : Type} (f : A -> B) (l : list A) (a b : A) :
  NoDup (map f l) -> In a l -> In b l -> f a = f b -> a = b.
Proof.
  induction l as [|x l IH]; intros Hnd Ha Hb E; [destruct Ha|].
  simpl in Hnd. apply NoDup_cons_iff in Hnd as [Hnot Hnd].
  destruct Ha as [-> | Ha], Hb as [-> | Hb]; auto.
  - exfalso. apply Hnot. rewrite E. now apply in_map.
  - exfalso. apply Hnot. rewrite <- E. now apply in_map.
Qed.

Lemma existsb_false {A : Type} (f : A -> bool) (l : list A) :
  (forall x, In x l -> f x = false) -> existsb f l = false.
Proof.
  intros H. destruct (existsb f l) eqn:E; [|reflexivity].
  apply existsb_exists in E as (x & Hin & Hx). rewrite (H x Hin) in Hx. discriminate.
Qed.

(** After [target.parentElement.remove()] the bubble of the clicked button
    offers no button any more. *)
Lemma clicked_bubble_offers_nothing (s : State) (message : nat) (b b' : Button) :
  wellformed s ->
  target_present (ButtonOf message b) s = true ->
  existsb (fun m => Nat.eqb (msg_node m) message
                    && existsb (holds_button b') (msg_children m))
          (chatContainer (removeButtonContainer message b s))
  = false.
Proof.
  intros (_ & Hnd & Hplain & _) Hpresent.
  unfold target_present in Hpresent.
  apply existsb_exists in Hpresent as (m0 & Hin0 & Hm0).
  apply andb_true_iff in Hm0 as [Hnode0 Hholds].
  apply Nat.eqb_eq in Hnode0.
  unfold removeButtonContainer. fields.
  apply existsb_false. intros m Hin.
  apply in_map_iff in Hin as (m1 & <- & Hin1).
  destruct (Nat.eqb_spec (msg_node m1) message) as [E | E].
  - assert (m1 = m0).
    { eapply NoDup_map_injective; eauto. congruence. }
    subst m1. cbn [msg_node msg_children]. rewrite E, Nat.eqb_refl. cbn [andb].
    destruct (Hplain m0 Hin0) as [Hc | [Hc | [Hc | [items Hc]]]];
      rewrite Hc in *; cbn [remove_first existsb] in *;
      try discriminate Hholds.
    + rewrite orb_false_r in Hholds. rewrite Hholds. reflexivity.
    + rewrite orb_false_r in Hholds. rewrite Hholds. reflexivity.
  - apply Nat.eqb_neq in E. rewrite E. reflexivity.
Qed.

(** X14.  A choice can be made once: in a state reached without any markup
    in what was typed or received, after a click on a style button or on a
    satisfaction button, the bubble it was in offers no button at all (the
    whole container has been removed), so that the same click cannot happen
    again. *)
Theorem choice_buttons_are_gone_after_a_click
    (s : State) (message : nat) (b : Button) :
  plainly_reachable s ->
  btn_class b = "style-button" \/ btn_class b = "satisfaction-button" ->
  target_present (ButtonOf message b) s = true ->
  (forall b', target_present (ButtonOf message b') (onClick (ButtonOf message b) s)
              = false)
  /\ step (Click (ButtonOf message b)) (onClick (ButtonOf message b) s) = None.
Proof.
  intros Hreach Hclass Hpresent. apply plainly_reachable_reachable in Hreach.
  apply reachable_wellformed in Hreach.
  assert (Hgone : forall b', target_present (ButtonOf message b')
                                            (onClick (ButtonOf message b) s) = false).
  { intros b'.
    pose proof (clicked_bubble_offers_nothing s message b b' Hreach Hpresent) as Hold.
    unfold removeButtonContainer in Hold. fields.
    unfold target_present, onClick.
    destruct Hclass as [Hclass | Hclass]; rewrite Hclass.
    - rewrite String.eqb_refl.
      destruct (JsString.truthy (btn_data b) && _);
        [unfold generateImage|]; fields; rewrite ?existsb_app, Hold; cbn;
        now rewrite ?andb_false_r.
    - replace (String.eqb "satisfaction-button" "style-button") with false by reflexivity.
      rewrite String.eqb_refl.
      destruct (String.eqb (btn_data b) "satisfied");
        [fields; rewrite ?existsb_app, Hold; cbn; now rewrite ?andb_false_r|].
      destruct (String.eqb (btn_data b) "retry");
        [fields; rewrite ?existsb_app, Hold; cbn; now rewrite ?andb_false_r|].
      destruct (String.eqb (btn_data b) "variations");
        fields; rewrite ?existsb_app, Hold; cbn; now rewrite ?andb_false_r. }
  split; [exact Hgone|].
  unfold step. now rewrite Hgone.
Qed.

Lemma choice_buttons_are_gone_after_a_click_witness :
  step (Click (ButtonOf 1 Scenario.cartoon)) (Scenario.after 3)
  = Some (Scenario.after 4)
  /\ step (Click (ButtonOf 1 Scenario.cartoon)) (Scenario.after 4) = None.
Proof.
  split; [vm_compute; reflexivity|].
  destruct (choice_buttons_are_gone_after_a_click (Scenario.after 3) 1 Scenario.cartoon)
    as (_ & H).
  - apply scenario_plainly_reachable. lia.
  - left. reflexivity.
  - vm_compute. reflexivity.
  - replace (Scenario.after 4) with (onClick (ButtonOf 1 Scenario.cartoon) (Scenario.after 3))
      by (vm_compute; reflexivity).
    exact H.
Defined.

(** ** The stored prompt *)

Lemma existsb_filter_false {A : Type} (f g : A -> bool) (l : list A) :
  existsb f l = false -> existsb f (filter g l) = false.
Proof.
  intros H. apply existsb_false. intros x Hin. apply filter_In in Hin as [Hin _].
  destruct (f x) eqn:E; [|reflexivity].
  assert (existsb f l = true) by (apply existsb_exists; eauto). congruence.
Qed.

Lemma existsb_map_false {A : Type} (f : A -> bool) (g : A -> A) (l : list A) :
  (forall x, f (g x) = true -> f x = true) ->
  existsb f l = false -> existsb f (map g l) = false.
Proof.
  intros Hg H. apply existsb_false. intros y Hin.
  apply in_map_iff in Hin as (x & <- & Hin).
  destruct (f (g x)) eqn:E; [|reflexivity].
  assert (existsb f l = true) by (apply existsb_exists; eauto). congruence.
Qed.

Lemma existsb_remove_nth_false {A : Type} (f : A -> bool) (l : list A) :
  forall k, existsb f l = false -> existsb f (remove_nth k l) = false.
Proof.
  induction l as [|a l IH]; intros [|k] H; simpl in *; auto.
  - apply orb_false_iff in H. tauto.
  - apply orb_false_iff in H as [Ha Hl]. rewrite Ha. now apply IH.
Qed.

Lemma remove_first_subset (f : Child -> bool) (l : list Child) (c : Child) :
  In c (remove_first f l) -> In c l.
Proof.
  induction l as [|a l IH]; simpl; [tauto|].
  destruct (f a); simpl; tauto.
Qed.

Lemma offers_after_removal (className : string) (message : nat) (b : Button)
    (m : Message) :
  offers className
    (if Nat.eqb (msg_node m) message
     then mkMessage (msg_node m) (msg_sender m) (msg_inner m)
                    (remove_first (holds_button b) (msg_children m))
     else m) = true ->
  offers className m = true.
Proof.
  destruct (Nat.eqb (msg_node m) message); [|tauto].
  unfold offers. cbn [msg_children]. intros H.
  apply existsb_exists in H as (c & Hin & Hc).
  apply existsb_exists. exists c. split; [|exact Hc].
  eapply remove_first_subset. exact Hin.
Qed.

Lemma offers_after_grid (className : string) (node : nat) (items : list GridItem)
    (m : Message) :
  offers className
    (if Nat.eqb (msg_node m) node
     then mkMessage (msg_node m) (msg_sender m) (msg_inner m)
                    (msg_children m ++ [ImageGridContainer items])
     else m) = true ->
  offers className m = true.
Proof.
  destruct (Nat.eqb (msg_node m) node); [|tauto].
  unfold offers. cbn [msg_children]. rewrite existsb_app. cbn [existsb].
  now rewrite !orb_false_r.
Qed.

Lemma imageBubbles_offer_nothing (className feedbackPrompt : string)
    (images : list string) :
  forall node, existsb (offers className) (imageBubbles node feedbackPrompt images) = false.
Proof.
  induction images as [|image rest IH]; intros node; [reflexivity|].
  cbn [imageBubbles existsb]. rewrite IH. reflexivity.
Qed.

Lemma variation_loop_keeps_the_prompt (feedbackPrompt : string) (parts : list Part) :
  forall s found,
    lastUserPrompt (fst (fold_left (variation_part feedbackPrompt) parts (s, found)))
    = lastUserPrompt s.
Proof.
  induction parts as [|part rest IH]; intros s found; [reflexivity|].
  destruct part as [text | data]; cbn [fold_left variation_part fst].
  - destruct (s, found) eqn:E. injection E as <- <-. apply IH.
  - rewrite IH. reflexivity.
Qed.

Lemma variation_resume_keeps_the_prompt
    (s : State) (loaderMessage : nat) (feedbackPrompt : string)
    (o : Settled (option (list Candidate))) :
  lastUserPrompt (generateImageVariation_resume loaderMessage feedbackPrompt o s)
  = lastUserPrompt s.
Proof.
  destruct o as [|candidates]; [reflexivity|].
  rewrite variation_resume_cases.
  destruct (first_candidate_parts candidates) as [parts|]; [|reflexivity].
  pose proof (variation_loop_keeps_the_prompt feedbackPrompt parts
                (removeChild loaderMessage s) false) as H.
  cbv zeta. destruct (fold_left _ parts _) as [s2 found]. cbn [fst snd] in *.
  destruct found; fields; exact H.
Qed.

Ltac still_unprompted Ho Hp :=
  right; unfold chat_offers in *; fields;
  rewrite ?existsb_app, ?Ho, ?Hp; split; reflexivity.

Lemma onSubmit_prompted (s : State) : prompted s -> prompted (onSubmit s).
Proof.
  intros H. unfold onSubmit.
  destruct (isLoading s); [exact H|].
  destruct (JsString.truthy _) eqn:T; [|exact H].
  fields. destruct (isVariationRequest s).
  - unfold generateImageVariation. fields.
    destruct H as [Hl | [Ho Hp]].
    + left. destruct (lastGeneratedImage s) as [base|];
        [destruct (JsString.truthy base)|]; fields; exact Hl.
    + destruct (lastGeneratedImage s) as [base|];
        [destruct (JsString.truthy base)|]; still_unprompted Ho Hp.
  - left. unfold handleUserPrompt. fields. exact T.
Qed.

Lemma onClick_prompted (t : Target) (s : State) : prompted s -> prompted (onClick t s).
Proof.
  intros H. destruct t as [src | message b | index |]; unfold onClick.
  - exact H.
  - assert (Hremoved : forall cls,
               existsb (offers cls) (chatContainer s) = false ->
               existsb (offers cls)
                 (map (fun m => if Nat.eqb (msg_node m) message
                                then mkMessage (msg_node m) (msg_sender m) (msg_inner m)
                                       (remove_first (holds_button b) (msg_children m))
                                else m) (chatContainer s)) = false).
    { intros cls. apply existsb_map_false. intros m. apply offers_after_removal. }
    destruct H as [Hl | [Ho Hp]].
    + left. destruct (String.eqb (btn_class b) "style-button").
      * destruct (JsString.truthy (btn_data b) && _);
          [unfold generateImage|]; fields; exact Hl.
      * destruct (String.eqb (btn_class b) "satisfaction-button"); [|exact Hl].
        destruct (String.eqb (btn_data b) "satisfied"); [fields; exact Hl|].
        destruct (String.eqb (btn_data b) "retry"); [fields; exact Hl|].
        destruct (String.eqb (btn_data b) "variations"); fields; exact Hl.
    + unfold chat_offers in Ho. specialize (Hremoved _ Ho).
      destruct (String.eqb (btn_class b) "style-button").
      * destruct (JsString.truthy (btn_data b) && _);
          [unfold generateImage|]; still_unprompted Hremoved Hp.
      * destruct (String.eqb (btn_class b) "satisfaction-button");
          [|right; now split].
        destruct (String.eqb (btn_data b) "satisfied");
          [still_unprompted Hremoved Hp|].
        destruct (String.eqb (btn_data b) "retry");
          [still_unprompted Hremoved Hp|].
        destruct (String.eqb (btn_data b) "variations");
          still_unprompted Hremoved Hp.
  - destruct (image_at _ _) as [image|]; [|exact H].
    destruct (JsString.truthy image); [|exact H].
    destruct H as [Hl | [Ho Hp]]; [left; fields; exact Hl | still_unprompted Ho Hp].
  - exact H.
Qed.

Lemma step_prompted (e : Event) (s s' : State) :
  prompted s -> step e s = Some s' -> prompted s'.
Proof.
  intros H Hstep. destruct e; unfold step in Hstep.
  - destruct (timers s); [discriminate|]. injection Hstep as <-.
    destruct H as [Hl | [Ho Hp]]; [left; fields; exact Hl | still_unprompted Ho Hp].
  - destruct (promptInput_disabled s); [discriminate|].
    injection Hstep as <-. exact H.
  - injection Hstep as <-. now apply onSubmit_prompted.
  - destruct (target_present t s); [|discriminate].
    injection Hstep as <-. now apply onClick_prompted.
  - injection Hstep as <-. exact H.
  - destruct (nth_error (inflight s) k) as [p|] eqn:Hk; [|discriminate].
    destruct p; try discriminate. injection Hstep as <-.
    destruct H as [Hl | [_ Hp]].
    + left. unfold handleUserPrompt_resume.
      destruct o as [|r]; [|destruct (isValidRequest r)]; fields; exact Hl.
    + exfalso. apply nth_error_In in Hk.
      assert (existsb awaits_persona (inflight s) = true)
        by (apply existsb_exists; eexists; split; [exact Hk | reflexivity]).
      congruence.
  - destruct (nth_error (inflight s) k) as [p|] eqn:Hk; [|discriminate].
    destruct p; try discriminate. injection Hstep as <-.
    unfold generateImage_resume.
    destruct H as [Hl | [Ho Hp]].
    + left. destruct o as [|images]; [fields; exact Hl|]. fields.
      destruct (0 <? length images)%nat; fields; exact Hl.
    + unfold chat_offers in Ho.
      pose proof (existsb_remove_nth_false _ _ k Hp) as Hp'.
      pose proof (existsb_filter_false _
                    (fun m => negb (Nat.eqb (msg_node m) loaderMessage)) _ Ho) as Ho'.
      destruct o as [|images]; [still_unprompted Ho' Hp'|]. fields.
      destruct (0 <? length images)%nat; [|still_unprompted Ho' Hp'].
      right. unfold chat_offers. fields. rewrite existsb_app. split; [|exact Hp'].
      rewrite (existsb_map_false (offers "style-buttons-container")).
      * reflexivity.
      * intros m. apply offers_after_grid.
      * rewrite existsb_app, Ho'. reflexivity.
  - destruct (nth_error (inflight s) k) as [p|] eqn:Hk; [|discriminate].
    destruct p; try discriminate. injection Hstep as <-.
    destruct H as [Hl | [Ho Hp]].
    + left. rewrite variation_resume_keeps_the_prompt. exact Hl.
    + unfold chat_offers in Ho.
      pose proof (existsb_remove_nth_false _ _ k Hp) as Hp'.
      pose proof (existsb_filter_false _
                    (fun m => negb (Nat.eqb (msg_node m) loaderMessage)) _ Ho) as Ho'.
      destruct o as [|candidates].
      * unfold generateImageVariation_resume. still_unprompted Ho' Hp'.
      * destruct (first_candidate_parts candidates) as [parts|] eqn:E.
        -- destruct (variation_resume_resolved
                       (set_inflight (remove_nth k (inflight s)) s)
                       loaderMessage feedbackPrompt candidates parts E)
             as (Hchat & _ & _ & _ & _ & Hin).
           right. unfold chat_offers. rewrite Hchat, Hin. fields.
           rewrite !existsb_app, Ho', imageBubbles_offer_nothing. split; [|exact Hp'].
           destruct (0 <? length _)%nat; reflexivity.
        -- rewrite variation_resume_cases, E. still_unprompted Ho' Hp'.
Qed.

Lemma run_prompted (trace : list Event) :
  forall s s', prompted s -> run trace s = Some s' -> prompted s'.
Proof.
  induction trace as [|e rest IH]; intros s s' H Hrun; simpl in Hrun.
  - now injection Hrun as <-.
  - destruct (step e s) as [s1|] eqn:E; [|discriminate].
    eapply IH; [|exact Hrun]. eapply step_prompted; eauto.
Qed.

Lemma reachable_prompted (s : State) : reachable s -> prompted s.
Proof.
  intros [trace Hrun]. eapply run_prompted; [|exact Hrun].
  right. split; reflexivity.
Qed.

Lemma Button_eqb_eq (a b : Button) : Button_eqb a b = true -> a = b.
Proof.
  destruct a as [c1 d1 l1], b as [c2 d2 l2]. unfold Button_eqb. cbn.
  intros H. apply andb_true_iff in H as [H H3]. apply andb_true_iff in H as [H1 H2].
  apply String.eqb_eq in H1, H2, H3. now subst.
Qed.

Lemma held_button (b : Button) (className : string) (buttons : list Button) :
  holds_button b (ButtonContainer className buttons) = true -> In b buttons.
Proof.
  cbn [holds_button]. intros H. apply existsb_exists in H as (x & Hin & E).
  apply Button_eqb_eq in E. now subst.
Qed.

(** X15.  In every state the page can reach without any markup in what was
    typed or received, a button that is in the chat is one of the seven the
    code writes (four styles, three satisfaction choices); and whenever a style button is in the chat a non-empty prompt
    is stored, so that a click on it always issues the image call: the
    branch of the listener that removes the buttons without a call is never
    taken. *)
Theorem style_buttons_always_come_with_a_prompt
    (s : State) (message : nat) (b : Button) :
  plainly_reachable s ->
  target_present (ButtonOf message b) s = true ->
  In b (style_buttons ++ satisfaction_buttons)
  /\ (btn_class b = "style-button" ->
      In b style_buttons
      /\ JsString.truthy (lastUserPrompt s) = true
      /\ inflight (onClick (ButtonOf message b) s)
         = inflight s
           ++ [AwaitImages (next_node s) (fullPrompt (lastUserPrompt s) (btn_data b))]).
Proof.
  intros Hreach Hpresent. apply plainly_reachable_reachable in Hreach.
  pose proof (reachable_prompted s Hreach) as Hprompt.
  apply reachable_wellformed in Hreach as (_ & _ & Hplain & _).
  unfold target_present in Hpresent.
  apply existsb_exists in Hpresent as (m & Hin & Hm).
  apply andb_true_iff in Hm as [_ Hholds].
  apply existsb_exists in Hholds as (c & Hc & Hb).
  assert (Hcases : (c = style_buttons_container /\ In b style_buttons
                    /\ offers "style-buttons-container" m = true)
                   \/ (c = satisfaction_buttons_container /\ In b satisfaction_buttons)).
  { destruct (Hplain m Hin) as [E | [E | [E | [items E]]]]; rewrite E in Hc.
    - destruct Hc.
    - destruct Hc as [<- | []]. left. split; [reflexivity|]. split.
      + eapply held_button. exact Hb.
      + unfold offers. rewrite E. reflexivity.
    - destruct Hc as [<- | []]. right. split; [reflexivity|].
      eapply held_button. exact Hb.
    - destruct Hc as [<- | []]. discriminate Hb. }
  split.
  - apply in_or_app. tauto.
  - intros Hclass.
    assert (Hstyle : In b style_buttons /\ offers "style-buttons-container" m = true).
    { destruct Hcases as [(_ & H1 & H2) | (_ & H)]; [now split|].
      exfalso. cbn in H. destruct H as [<- | [<- | [<- | []]]]; discriminate Hclass. }
    destruct Hstyle as [Hmember Hoffers].
    assert (Hstored : JsString.truthy (lastUserPrompt s) = true).
    { destruct Hprompt as [H | [H _]]; [exact H|].
      exfalso. unfold chat_offers in H.
      assert (existsb (offers "style-buttons-container") (chatContainer s) = true)
        by (apply existsb_exists; eauto).
      congruence. }
    assert (Hdata : JsString.truthy (btn_data b) = true).
    { cbn in Hmember. destruct Hmember as [<- | [<- | [<- | [<- | []]]]]; reflexivity. }
    conjuncts; auto.
    unfold onClick. rewrite Hclass, String.eqb_refl, Hdata. fields.
    rewrite Hstored. cbn [andb]. unfold generateImage. fields. reflexivity.
Qed.

Lemma style_buttons_always_come_with_a_prompt_witness :
  JsString.truthy (lastUserPrompt (Scenario.after 3)) = true
  /\ inflight (onClick (ButtonOf 1 Scenario.cartoon) (Scenario.after 3))
     = inflight (Scenario.after 3)
       ++ [AwaitImages (next_node (Scenario.after 3))
             (fullPrompt (lastUserPrompt (Scenario.after 3)) "cartoon")].
Proof.
  destruct (style_buttons_always_come_with_a_prompt (Scenario.after 3) 1 Scenario.cartoon)
    as (_ & H).
  - apply scenario_plainly_reachable. lia.
  - vm_compute. reflexivity.
  - destruct (H eq_refl) as (_ & H2 & H3). split; [exact H2 | exact H3].
Defined.
